(** * Section.js: model-to-geometry compilation

    A shallow embedding of [src/section.js] (the option handling of the
    [Section] constructor, [applyModelDefaults], [build], [buildLayer],
    [createUnitizedMesh], [createUnitMesh] and [getMaterial]) and the
    properties of the layout compiler that follow from it.

    Modelling conventions.
    - A JS number is [num]: an exact rational, or NaN, or one of the two
      infinities.  Sums, differences, products and quotients are exact:
      the rounding of each result to a double is not modelled.  The one
      discrete result that depends on it is modelled: [Math.ceil] rounds
      its argument to the nearest double ([binary64], round to nearest,
      ties to even) before it takes the ceiling; on an argument that is
      a double this changes nothing, and on the exact quotient of two
      doubles it gives what the code computes.  The sign of zero is not
      modelled (a division by [-0] is treated as a division by [0]).
    - A JS value is [value]: undefined, null, a boolean, a number, a string
      or a plain object: a finite map from the names of its own
      properties to their values, with [Object.prototype] as its
      prototype.  An own property can have any name, [hasOwnProperty]
      and [__proto__] included (as [JSON.parse] makes them).  Property
      reads go through [get] and [field]; reading a property of
      undefined or null throws a TypeError, as in JS.  Reads are used for
      the property names that the source reads only, none of which
      exists on [Object.prototype].  [Object.keys] of a primitive is as
      in ECMAScript 2015 and later.
    - The order in which [Object.keys] lists the own properties of an
      object depends on how the object was made, which a finite map does
      not record; the order is the host's ([key_rank]), so that what is
      proved holds for every order.
    - An assignment [x[key] = v] by the source creates or updates an own
      property, except for the key [__proto__], which reaches the setter
      of [Object.prototype] and sets the prototype of [x] instead
      ([assign]).
    - A layer of the model is an element ([Elem]: an object, given by its
      own properties and its prototype) or a [Composite] (an array of
      layers), which is what [Array.isArray] distinguishes in the
      source.  [Element o] is the element with the own properties [o]
      and the prototype [Object.prototype], as an object literal or
      [JSON.parse] makes it.
    - The conversions between strings and numbers, the ordering of strings
      and the texture loader belong to the host (the JS engine and
      three.js); they are the fields of the class [Host].
    - Exceptions and non-termination are explicit: a computation yields
      [Ok], [Throw] or [OutOfFuel] (the fuel of the tiling loops ran out).
    - The methods read and write the object [instance]; they are
      computations in the state-and-error monad [M].  Of the instance only
      the model, the options and what is added to the scene are kept; the
      renderer, the camera, the lights and the mouse handling are not
      part of the model. *)

From Stdlib Require Import QArith Qround Qminmax Lqa Lia.
From stdpp Require Import base option list strings pretty gmap fin_maps sorting.

#[local] Set Warnings "-register-all".
#[local] Open Scope string_scope.
#[local] Open Scope list_scope.

(** ** Numbers *)

Inductive num := NaN | PInf | NInf | Fin (q : Q).

Definition num_of_nat (n : nat) : num := Fin (inject_Z (Z.of_nat n)).

Definition num_neg (a : num) : num :=
  match a with
  | NaN => NaN
  | PInf => NInf
  | NInf => PInf
  | Fin q => Fin (- q)
  end.

Definition num_add (a b : num) : num :=
  match a, b with
  | NaN, _ | _, NaN => NaN
  | PInf, NInf | NInf, PInf => NaN
  | PInf, _ | _, PInf => PInf
  | NInf, _ | _, NInf => NInf
  | Fin p, Fin q => Fin (p + q)
  end.

Definition num_sub (a b : num) : num := num_add a (num_neg b).

(** The sign of a number that is not NaN: [Gt] positive, [Lt] negative,
    [Eq] zero. *)
Definition num_sign (a : num) : comparison :=
  match a with
  | NaN => Eq
  | PInf => Gt
  | NInf => Lt
  | Fin q => (q ?= 0)%Q
  end.

Definition sign_mul (s t : comparison) : comparison :=
  match s with
  | Eq => Eq
  | Gt => t
  | Lt => CompOpp t
  end.

(** The infinity of a given sign; a zero sign gives NaN (as [Infinity * 0]
    and [0 / 0] do). *)
Definition inf_of_sign (s : comparison) : num :=
  match s with
  | Gt => PInf
  | Lt => NInf
  | Eq => NaN
  end.

Definition num_mul (a b : num) : num :=
  match a, b with
  | NaN, _ | _, NaN => NaN
  | Fin p, Fin q => Fin (p * q)
  | _, _ => inf_of_sign (sign_mul (num_sign a) (num_sign b))
  end.

Definition num_div (a b : num) : num :=
  match a, b with
  | NaN, _ | _, NaN => NaN
  | Fin p, Fin q =>
      if Qeq_bool q 0 then inf_of_sign (p ?= 0)%Q else Fin (p / q)
  | Fin _, _ => Fin 0
  | _, Fin q =>
      match (q ?= 0)%Q with
      | Lt => num_neg a
      | _ => a
      end
  | _, _ => NaN
  end.

(** [n / d] rounded to the nearest integer, ties to the even one, for a
    positive [d]. *)
Definition round_div (n d : Z) : Z :=
  let f := (n / d)%Z in
  match (2 * (n mod d) ?= d)%Z with
  | Lt => f
  | Gt => (f + 1)%Z
  | Eq => if Z.even f then f else (f + 1)%Z
  end.

(** The [k] with [2^k <= n/d < 2^(k+1)], for positive [n] and [d]. *)
Definition binary_exponent (n d : Z) : Z :=
  let k0 := (Z.log2 n - Z.log2 d)%Z in
  if (d * 2 ^ Z.max 0 k0 <=? n * 2 ^ Z.max 0 (- k0))%Z then k0 else (k0 - 1)%Z.

(** The double nearest to a rational (IEEE 754 binary64, round to
    nearest, ties to even): a significand [m] of at most 53 bits times
    [2^e], with [e >= -1074] (below that exponent the doubles are
    subnormal); a result of [2^1024] or more is an infinity. *)
Definition binary64 (q : Q) : num :=
  let n := Z.abs (Qnum q) in
  let d := Zpos (Qden q) in
  if (n =? 0)%Z then Fin 0
  else
    let e := Z.max (binary_exponent n d - 52) (-1074) in
    let m := round_div (n * 2 ^ Z.max 0 (- e)) (d * 2 ^ Z.max 0 e) in
    if (2 ^ 1024 <=? m * 2 ^ Z.max 0 e)%Z
    then (if (0 <? Qnum q)%Z then PInf else NInf)
    else Fin (Qmake (Z.sgn (Qnum q) * m * 2 ^ Z.max 0 e)
                    (Z.to_pos (2 ^ Z.max 0 (- e)))).

(** [Math.ceil], on the double nearest to its argument. *)
Definition num_ceil (a : num) : num :=
  match a with
  | Fin q =>
      match binary64 q with
      | Fin r => Fin (inject_Z (Qceiling r))
      | inf => inf
      end
  | _ => a
  end.

(** [a < b] on numbers; false as soon as one side is NaN. *)
Definition num_lt (a b : num) : bool :=
  match a, b with
  | NaN, _ | _, NaN => false
  | _, NInf => false
  | NInf, _ => true
  | PInf, _ => false
  | Fin _, PInf => true
  | Fin p, Fin q =>
      match (p ?= q)%Q with
      | Lt => true
      | _ => false
      end
  end.

(** ** Values *)

Inductive value :=
  | VUndef
  | VNull
  | VBool (b : bool)
  | VNum (n : num)
  | VStr (s : string)
  | VObj (o : gmap string value).

(** The prototype of an object that the source changes: the one of an
    object literal, [null], or a plain object (whose own prototype is
    [Object.prototype]). *)
Inductive prototype :=
  | ObjectPrototype
  | NullPrototype
  | PlainObject (p : gmap string value).

(** A layer of the model: [Array.isArray] tells the two apart. *)
Inductive layer :=
  | Elem (own : gmap string value) (proto : prototype)
  | Composite (ls : list layer).

Abbreviation Element o := (Elem o ObjectPrototype).

Definition VInt (z : Z) : value := VNum (Fin (inject_Z z)).

(** ** three.js objects *)

Inductive texture := Texture (url : value).

Inductive material :=
  | MeshBasicMaterial (map : texture)           (* side: THREE.DoubleSide *)
  | MeshLambertMaterial (color : value) (transparent : bool) (opacity : value).

Record vector3 := Vector3 { vx : value; vy : value; vz : value }.

Record box := BoxGeometry { bwidth : value; bheight : value; bdepth : value }.

Inductive object3d :=
  | Mesh (name : value) (geometry : box) (mat : material) (position : vector3)
  | Object3D (children : list object3d) (position : vector3).

(** What [scene.add] is called with: an object, or (in debug mode) a
    [THREE.BoundingBoxHelper] around one. *)
Inductive scene_child :=
  | SceneObject (object : object3d)
  | BoundingBoxHelper (object : object3d) (hex : Z).

(** A new [THREE.Object3D] or [THREE.Mesh] sits at the origin. *)
Definition origin : vector3 := Vector3 (VInt 0) (VInt 0) (VInt 0).

Definition position_of (m : object3d) : vector3 :=
  match m with
  | Mesh _ _ _ p => p
  | Object3D _ p => p
  end.

Definition children_of (m : object3d) : list object3d :=
  match m with
  | Object3D cs _ => cs
  | Mesh _ _ _ _ => []
  end.

(** [m.position.set(x, y, z)] *)
Definition position_set (m : object3d) (p : vector3) : object3d :=
  match m with
  | Mesh n g mt _ => Mesh n g mt p
  | Object3D cs _ => Object3D cs p
  end.

(** ** Outcomes: the error monad *)

Inductive error := TypeError.

Inductive outcome (A : Type) :=
  | Ok (a : A)
  | Throw (e : error)
  | OutOfFuel.
Arguments Ok {A} a.
Arguments Throw {A} e.
Arguments OutOfFuel {A}.

#[global] Instance outcome_ret : MRet outcome := λ A a, Ok a.
#[global] Instance outcome_bind : MBind outcome := λ A B f m,
  match m with
  | Ok a => f a
  | Throw e => Throw e
  | OutOfFuel => OutOfFuel
  end.
#[global] Instance outcome_fmap : FMap outcome := λ A B f m,
  match m with
  | Ok a => Ok (f a)
  | Throw e => Throw e
  | OutOfFuel => OutOfFuel
  end.

(** [forEach] with a body that may throw, collecting the results. *)
Definition mapO {A B} (f : A → outcome B) : list A → outcome (list B) :=
  fix go l :=
    match l with
    | [] => Ok []
    | a :: l' => b ← f a; bs ← go l'; Ok (b :: bs)
    end.

(** ** The instance and its monad *)

Record instance := MkInstance {
  model : list layer;
  options : gmap string value;
  scene : list scene_child
}.

Definition M (A : Type) : Type := instance → outcome (A * instance).

#[global] Instance M_ret : MRet M := λ A a s, Ok (a, s).
#[global] Instance M_bind : MBind M := λ A B f m s,
  match m s with
  | Ok (a, s') => f a s'
  | Throw e => Throw e
  | OutOfFuel => OutOfFuel
  end.

Definition lift {A} (o : outcome A) : M A := λ s,
  match o with
  | Ok a => Ok (a, s)
  | Throw e => Throw e
  | OutOfFuel => OutOfFuel
  end.

Definition throw {A} (e : error) : M A := λ _, Throw e.

(** [instance.options[key]] *)
Definition option_get (key : string) : M value := λ s,
  Ok (default VUndef (options s !! key), s).

(** [instance.model] *)
Definition model_get : M (list layer) := λ s, Ok (model s, s).

Definition model_set (m : list layer) : M unit := λ s,
  Ok (tt, MkInstance m (options s) (scene s)).

(** [instance.scene.add(x)] *)
Definition scene_add (x : scene_child) : M unit := λ s,
  Ok (tt, MkInstance (model s) (options s) (scene s ++ [x])%list).

Definition mapM {A B} (f : A → M B) : list A → M (list B) :=
  fix go l :=
    match l with
    | [] => mret []
    | a :: l' => b ← f a; bs ← go l'; mret (b :: bs)
    end.

Definition foldM {A B} (f : B → A → M B) : list A → B → M B :=
  fix go l b :=
    match l with
    | [] => mret b
    | a :: l' => b' ← f b a; go l' b'
    end.

(** ** Property access *)

(** [v[key]]: throws on undefined and null; a primitive has none of the
    properties the source reads. *)
Definition get (v : value) (key : string) : outcome value :=
  match v with
  | VUndef | VNull => Throw TypeError
  | VObj o => Ok (default VUndef (o !! key))
  | _ => Ok VUndef
  end.

(** [o[key]] on an object known to be one. *)
Definition field (o : gmap string value) (key : string) : value :=
  default VUndef (o !! key).

(** What reads see of an object with the own properties [o] and the
    prototype [p]: an own property, else a property of the prototype. *)
Definition view (o : gmap string value) (p : prototype) : gmap string value :=
  match p with
  | PlainObject pm => o ∪ pm
  | _ => o
  end.

(** [layer[key]] on a node of the model: an array has none of the
    properties the source reads from a layer. *)
Definition layer_get (l : layer) (key : string) : value :=
  match l with
  | Elem o p => field (view o p) key
  | Composite _ => VUndef
  end.

Definition has_own (o : gmap string value) (key : string) : bool :=
  bool_decide (is_Some (o !! key)).

(** Whether [x.hasOwnProperty] is the function of [Object.prototype],
    for an object [x] with the own properties [o] and the prototype [p]:
    an own property of that name, or one of the prototype, shadows it
    (and, as no value of the model is a function, calling it throws),
    and an object without prototype has none. *)
Definition inherits_hasOwnProperty (o : gmap string value) (p : prototype)
  : bool :=
  negb (has_own o "hasOwnProperty")
  && match p with
     | ObjectPrototype => true
     | NullPrototype => false
     | PlainObject pm => negb (has_own pm "hasOwnProperty")
     end.

(** What the setter [__proto__] of [Object.prototype] does with [v]: an
    object or null becomes the prototype, any other value is ignored. *)
Definition set_prototype (p : prototype) (v : value) : prototype :=
  match v with
  | VObj pm => PlainObject pm
  | VNull => NullPrototype
  | _ => p
  end.

(** [x[key] = v], for an object [x] with the own properties [o] and the
    prototype [p].  Every property of the model is a writable data
    property, so that an assignment creates or updates an own property;
    but for the key [__proto__], when [x] has no own property of that
    name, the assignment reaches the setter of [Object.prototype],
    unless the prototype is null or has an own property [__proto__]
    itself. *)
Definition assign (x : gmap string value * prototype) (key : string)
    (v : value) : gmap string value * prototype :=
  let '(o, p) := x in
  if decide (key = "__proto__") then
    if has_own o "__proto__" then (<[key := v]> o, p)
    else
      match p with
      | ObjectPrototype => (o, set_prototype p v)
      | NullPrototype => (<[key := v]> o, p)
      | PlainObject pm =>
          if has_own pm "__proto__" then (<[key := v]> o, p)
          else (o, set_prototype p v)
      end
  else (<[key := v]> o, p).

(** [forEach] with a body that may throw, threading a state. *)
Definition foldO {A B} (f : B → A → outcome B) : list A → B → outcome B :=
  fix go l b :=
    match l with
    | [] => Ok b
    | a :: l' => b' ← f b a; go l' b'
    end.

(** ** Coercions and operators *)

Class Host := {
  StringToNumber : string → num;
  NumberToString : num → string;
  string_lt : string → string → bool;
  loadTexture : value → option texture;
  key_rank : gmap string value → string → nat
}.

Section Operators.
Context `{Host}.

(** The own properties of an object in the order of [Object.keys]. *)
Definition keys_in_order (o : gmap string value) : list (string * value) :=
  @merge_sort _ (λ x y, (key_rank o x.1 ≤ key_rank o y.1)%nat)
    (λ x y, decide (key_rank o x.1 ≤ key_rank o y.1)%nat) (map_to_list o).

(** The own enumerable properties [Object.keys(v)] visits, each with its
    value [v[key]]: [Object.keys] throws on undefined and null, and a
    string has its indices as keys. *)
Definition own_entries (v : value) : outcome (list (string * value)) :=
  match v with
  | VUndef | VNull => Throw TypeError
  | VObj o => Ok (keys_in_order o)
  | VStr s =>
      Ok (imap (λ i c, (pretty i, VStr (String c EmptyString)))
               (String.list_ascii_of_string s))
  | _ => Ok []
  end.

Definition ToPrimitive (v : value) : value :=
  match v with
  | VObj _ => VStr "[object Object]"
  | _ => v
  end.

Definition ToNumber (v : value) : num :=
  match ToPrimitive v with
  | VUndef => NaN
  | VNull => Fin 0
  | VBool true => Fin 1
  | VBool false => Fin 0
  | VNum n => n
  | VStr s => StringToNumber s
  | VObj _ => NaN
  end.

Definition ToString (v : value) : string :=
  match ToPrimitive v with
  | VUndef => "undefined"
  | VNull => "null"
  | VBool true => "true"
  | VBool false => "false"
  | VNum n => NumberToString n
  | VStr s => s
  | VObj _ => "[object Object]"
  end.

Definition ToBoolean (v : value) : bool :=
  match v with
  | VUndef | VNull => false
  | VBool b => b
  | VNum NaN => false
  | VNum (Fin q) => negb (Qeq_bool q 0)
  | VNum _ => true
  | VStr s => negb (String.eqb s "")
  | VObj _ => true
  end.

Definition is_string (v : value) : bool :=
  match v with
  | VStr _ => true
  | _ => false
  end.

(** [a < b] *)
Definition js_lt (a b : value) : bool :=
  match ToPrimitive a, ToPrimitive b with
  | VStr s, VStr t => string_lt s t
  | _, _ => num_lt (ToNumber a) (ToNumber b)
  end.

(** [a + b] *)
Definition js_add (a b : value) : value :=
  if is_string (ToPrimitive a) || is_string (ToPrimitive b)
  then VStr (ToString a +:+ ToString b)
  else VNum (num_add (ToNumber a) (ToNumber b)).

(** [a - b], [a * b], [a / b], [-a] *)
Definition js_sub (a b : value) : value := VNum (num_sub (ToNumber a) (ToNumber b)).
Definition js_mul (a b : value) : value := VNum (num_mul (ToNumber a) (ToNumber b)).
Definition js_div (a b : value) : value := VNum (num_div (ToNumber a) (ToNumber b)).
Definition js_neg (a : value) : value := VNum (num_neg (ToNumber a)).

(** [a || b] *)
Definition js_or (a b : value) : value := if ToBoolean a then a else b.

(** [v === s] for a string literal [s] *)
Definition js_is (v : value) (s : string) : bool :=
  match v with
  | VStr t => String.eqb t s
  | _ => false
  end.

(** [Math.ceil(v)] *)
Definition Math_ceil (v : value) : value := VNum (num_ceil (ToNumber v)).

End Operators.

(** ** The constructor's options (section.js, lines 16-51) *)

Definition builtin_offset : gmap string value :=
  {[ "top" := VInt 0; "left" := VInt 0; "bottom" := VInt 0;
     "right" := VInt 0; "front" := VInt 0; "back" := VInt 0 ]}.

Definition builtin_defaultElement : gmap string value :=
  {[ "name" := VStr "element";
     "constructionPlane" := VInt 90;
     "height" := VInt 500;
     "width" := VInt 500;
     "thickness" := VInt 10;
     "color" := VInt 13421772;              (* 0xcccccc *)
     "opacity" := VInt 1;
     "material" := VNull;
     "transparency" := VInt 1;
     "type" := VStr "sheet";
     "offset" := VObj builtin_offset ]}.

Definition builtin_options : gmap string value :=
  {[ "background" := VInt 16777215;         (* 0xffffff *)
     "debug" := VBool false;
     "defaultElement" := VObj builtin_defaultElement;
     "fps" := VInt 30;
     "selectedMaterialColor" := VInt 16776960;   (* 0xffff00 *)
     "selectedMaterialOpacity" := VNum (Fin (2 # 10));
     "showOriginMarker" := VBool true ]}.

Section Source.
Context `{Host}.

(** The own properties of [instance.options] after the constructor ran
    with the argument [opts]: every own key of a truthy [opts] is
    assigned over the built-in record.  (The prototype of
    [instance.options], which a key [__proto__] of [opts] sets, is
    never consulted: the options that the source reads are own
    properties of the built-in record.) *)
Definition Section_options (opts : value) : outcome (gmap string value) :=
  if ToBoolean opts then
    entries ← own_entries opts;
    Ok (foldl (λ x '(key, v), assign x key v)
              (builtin_options, ObjectPrototype) entries).1
  else Ok builtin_options.

(** [new Section(elementId, model, options)], as far as [build] sees it:
    the model, the options, and the objects that are added to the scene
    from then on. *)
Definition Section_new (mdl : list layer) (opts : value) : outcome instance :=
  o ← Section_options opts;
  Ok (MkInstance mdl o []).

(** One turn of the loop of [applyModelDefaults] (line 80), on the
    element with the own properties and the prototype [x]:
    [model.hasOwnProperty(key)] throws unless [model.hasOwnProperty] is
    the function of [Object.prototype]. *)
Definition fill_default (x : gmap string value * prototype)
    (entry : string * value) : outcome (gmap string value * prototype) :=
  if inherits_hasOwnProperty x.1 x.2 then
    if has_own x.1 entry.1 then Ok x else Ok (assign x entry.1 entry.2)
  else Throw TypeError.

(** [applyModelDefaults] (lines 73-83) *)
Fixpoint applyModelDefaults (mdl : layer) (defaults : value) : outcome layer :=
  match mdl with
  | Composite ls =>
      Composite <$> mapO (λ element, applyModelDefaults element defaults) ls
  | Elem o p =>
      entries ← own_entries defaults;
      x ← foldO fill_default entries (o, p);
      Ok (Elem x.1 x.2)
  end.

(** [getMaterial] (lines 258-273) *)
Definition getMaterial (mt : value) : outcome material :=
  let lambert :=
    color ← get mt "color";
    opacity ← get mt "opacity";
    Ok (MeshLambertMaterial color true (js_or opacity (VInt 1))) in
  if ToBoolean mt then
    tex ← get mt "texture";
    if ToBoolean tex then
      match loadTexture tex with
      | Some t => Ok (MeshBasicMaterial t)
      | None => lambert                 (* the catch block logs, then falls through *)
      end
    else lambert
  else lambert.

(** [createUnitMesh] (lines 233-240) *)
Definition createUnitMesh (name width height thickness mt : value)
  : outcome object3d :=
  mat ← getMaterial mt;
  Ok (Mesh name (BoxGeometry width height thickness) mat origin).

(** [for (i = start; i < bound; i++) body]: one unit of fuel per
    iteration that is entered. *)
Fixpoint for_lt {St} (fuel : nat) (bound : value)
    (body : nat → St → outcome St) (i : nat) (s : St) : outcome St :=
  if js_lt (VNum (num_of_nat i)) bound then
    match fuel with
    | O => OutOfFuel
    | S fuel' => s' ← body i s; for_lt fuel' bound body (S i) s'
    end
  else Ok s.

(** The unit placed at row [i], column [j] (lines 200-207). *)
Definition grid_unit (obj : gmap string value) (i j : nat) : outcome object3d :=
  let offset := field obj "offset" in
  left ← get offset "left";
  right ← get offset "right";
  top ← get offset "top";
  bottom ← get offset "bottom";
  front ← get offset "front";
  back ← get offset "back";
  unit ← createUnitMesh (field obj "name")
           (js_sub (js_sub (field obj "width") left) right)
           (js_sub (js_sub (field obj "height") top) bottom)
           (js_sub (js_sub (field obj "thickness") front) back)
           (field obj "material");
  Ok (position_set unit
        (Vector3 (js_mul (VNum (num_of_nat j)) (field obj "width"))
                 (js_mul (VNum (num_of_nat i)) (field obj "height"))
                 (vz (position_of unit)))).

(** [createUnitizedMesh] (lines 191-222) *)
Definition createUnitizedMesh (fuel : nat) (obj : gmap string value)
  : M object3d :=
  defaultElement ← option_get "defaultElement";
  dheight ← lift (get defaultElement "height");
  let rows := Math_ceil (js_div dheight (field obj "height")) in
  dwidth ← lift (get defaultElement "width");
  let cols := Math_ceil (js_div dwidth (field obj "width")) in
  units ← lift (for_lt fuel rows (λ i geom,
             for_lt fuel cols (λ j geom,
               unit ← grid_unit obj i j;
               Ok (geom ++ [unit])%list) 0%nat geom) 0%nat []);
  let geom := Object3D units
    (Vector3
       (js_add (js_neg (js_div (js_mul cols (field obj "width")) (VInt 2)))
               (js_mul (field obj "width") (VNum (Fin (5 # 10)))))
       (js_add (js_neg (js_div (js_mul rows (field obj "height")) (VInt 2)))
               (js_mul (field obj "height") (VNum (Fin (5 # 10)))))
       (VInt 0)) in
  debug ← option_get "debug";
  _ ← (if ToBoolean debug
       then scene_add (BoundingBoxHelper geom 16711680)   (* 0xff0000 *)
       else mret tt);
  mret geom.

(** [buildLayer] (lines 126-184); [None] is the [undefined] that is
    returned when no branch assigns [mesh]. *)
Fixpoint buildLayer (fuel : nat) (l : layer) : M (option object3d) :=
  match l with
  | Composite ls =>
      members ← mapM (buildLayer fuel) ls;
      mret (Some (Object3D (omap id members) origin))
  | Elem own proto =>
      let o := view own proto in
      if js_is (field o "type") "unit" then
        mesh ← createUnitizedMesh fuel o;
        mret (Some mesh)
      else if js_is (field o "type") "frame" then
        mret None
      else if js_is (field o "type") "void" then
        mret (Some (Object3D [] origin))
      else
        defaultElement ← option_get "defaultElement";
        width ← lift (get defaultElement "width");
        height ← lift (get defaultElement "height");
        front ← lift (get (field o "offset") "front");
        back ← lift (get (field o "offset") "back");
        mesh ← lift (createUnitMesh (field o "name") width height
                       (js_sub (js_sub (field o "thickness") front) back)
                       (field o "material"));
        mret (Some mesh)
  end.

(** The thickness [build] gives a layer (lines 97-108). *)
Definition layer_thickness (l : layer) : value :=
  let thickness :=
    match l with
    | Composite ls =>
        foldl (λ last current,
                 if js_lt last (layer_get current "thickness")
                 then layer_get current "thickness" else last)
              (VInt 0) ls
    | Elem o p => field (view o p) "thickness"
    end in
  if js_lt thickness (VInt 5) then VInt 5 else thickness.

(** One turn of the [forEach] of [build] (lines 96-115); the state is
    the children of [group] and [totalThickness]. *)
Definition build_step (fuel : nat) (st : list object3d * value) (l : layer)
  : M (list object3d * value) :=
  let '(group, totalThickness) := st in
  let thickness := layer_thickness l in
  mesh ← buildLayer fuel l;
  match mesh with
  | None => throw TypeError          (* mesh.position of undefined *)
  | Some mesh =>
      let mesh := position_set mesh
        (Vector3 (VInt 0) (VInt 0)
                 (js_add totalThickness (js_div thickness (VInt 2)))) in
      mret ((group ++ [mesh])%list,
            js_add totalThickness (js_or thickness (VInt 0)))
  end.

(** [build] (lines 91-119).  [instance.model] is an array, so that
    [applyModelDefaults] takes its first branch and visits the layers in
    turn; the model it updates in place is written back. *)
Definition build (fuel : nat) : M unit :=
  mdl ← model_get;
  defaultElement ← option_get "defaultElement";
  mdl ← lift (mapO (λ element, applyModelDefaults element defaultElement) mdl);
  _ ← model_set mdl;
  '(group, _) ← foldM (build_step fuel) mdl ([], VInt 0);
  scene_add (SceneObject (Object3D group origin)).

End Source.

(** ** The helpers beside the compiler (section.js, lines 333-364) *)

(** [merge] (lines 333-342): a new object [C], to which the own
    properties of [A], then those of [B], are assigned.  The result is
    given by its own properties; an assignment to [__proto__] changes
    the prototype of [C], which decides what a later assignment to
    [__proto__] does. *)
Definition merge `{Host} (A B : value) : outcome (gmap string value) :=
  entriesA ← own_entries A;
  let C := foldl (λ C '(key, v), assign C key v) (∅, ObjectPrototype) entriesA in
  entriesB ← own_entries B;
  Ok (foldl (λ C '(key, v), assign C key v) C entriesB).1.

(** [on] (lines 349-354), on the own properties of [instance.handlers];
    a handler is a value of any type [Handler].  Two event names are
    special in JS.  Once [handlers] has an own property [hasOwnProperty]
    (an array, after a registration for the event of that name), the call
    [instance.handlers.hasOwnProperty(event)] calls an array and throws.
    The assignment [instance.handlers["__proto__"] = []] sets the
    prototype and creates no own property; the handler is pushed onto
    that prototype. *)
Definition on {Handler : Type} (event : string) (handler : Handler)
    (handlers : gmap string (list Handler)) : outcome (gmap string (list Handler)) :=
  if decide (is_Some (handlers !! "hasOwnProperty")) then Throw TypeError
  else if decide (event = "__proto__") then Ok handlers
  else
    let handlers :=
      if decide (is_Some (handlers !! event)) then handlers
      else <[event := []]> handlers in
    Ok (<[event := default [] (handlers !! event) ++ [handler]]> handlers).

Section Pointer.
Context `{Host}.


End Pointer.

(** ** Vocabulary of the statements *)

(** [resolved d l l']: [l'] is [l] with the defaults [d] filled in at
    every leaf element: each key of [d] is an own property of the
    element, the properties that were present keep their value, and the
    absent ones carry the default.  The key [__proto__] is apart, as
    assigning it need not create a property; when [d] has no such key,
    the prototype of the element and its property of that name are as
    they were. *)
Inductive resolved (d : gmap string value) : layer → layer → Prop :=
  | resolved_Elem o p o' p' :
      (∀ key, key ≠ "__proto__" → is_Some (d !! key) → is_Some (o' !! key)) →
      (∀ key v, o !! key = Some v → o' !! key = Some v) →
      (∀ key, key ≠ "__proto__" → o !! key = None → o' !! key = d !! key) →
      (d !! "__proto__" = None →
         p' = p ∧ o' !! "__proto__" = o !! "__proto__") →
      resolved d (Elem o p) (Elem o' p')
  | resolved_Composite ls ls' :
      Forall2 (resolved d) ls ls' →
      resolved d (Composite ls) (Composite ls').

(** Whether [hasOwnProperty] can be called on every element of a model
    node. *)
Fixpoint callable (l : layer) : bool :=
  match l with
  | Elem o p => inherits_hasOwnProperty o p
  | Composite ls => forallb callable ls
  end.

(** Neither [hasOwnProperty] nor [__proto__]. *)
Definition ordinary (key : string) : Prop :=
  key ≠ "hasOwnProperty" ∧ key ≠ "__proto__".

(** A value none of whose own keys is [hasOwnProperty] or [__proto__]. *)
Definition ordinary_keys `{Host} (v : value) : Prop :=
  ∀ entries, own_entries v = Ok entries → Forall (λ e, ordinary e.1) entries.

(** A model node with the defaults [d] filled in at every element. *)
Fixpoint with_defaults (d : gmap string value) (l : layer) : layer :=
  match l with
  | Elem o p => Elem (o ∪ d) p
  | Composite ls => Composite (with_defaults d <$> ls)
  end.

(** Filling in the absent keys, one by one. *)
Definition fill_missing (o : gmap string value) (entries : list (string * value))
  : gmap string value :=
  foldl (λ m '(key, v), if decide (is_Some (m !! key)) then m else <[key := v]> m)
        o entries.

(** [Math.ceil(cover / size)]: the number of rows, or columns, in which
    units of the given size cover a dimension. *)
Definition tiles (cover size : Q) : num := num_ceil (num_div (Fin cover) (Fin size)).


(** The finite number a value is, if it is one. *)
Definition finite (v : value) : option Q :=
  match v with
  | VNum (Fin q) => Some q
  | _ => None
  end.


(** The [thickness] fields of the direct members of a composite that are
    finite numbers. *)
Definition direct_thicknesses (ls : list layer) : list Q :=
  omap (λ member, finite (layer_get member "thickness")) ls.






(** The centre, on X and Y, of the child [u] of the group [g], in the
    coordinates in which [g] is placed. *)
Definition centre_in (g u : object3d) : option (Q * Q) :=
  gx ← finite (vx (position_of g));
  gy ← finite (vy (position_of g));
  ux ← finite (vx (position_of u));
  uy ← finite (vy (position_of u));
  Some (gx + ux, gy + uy)%Q.

(** [new Section(id, mdl, opts)] followed by [build()]; the result is the
    scene. *)
Definition run `{Host} (fuel : nat) (mdl : list layer) (opts : value)
  : outcome (list scene_child) :=
  s ← Section_new mdl opts;
  r ← build fuel s;
  Ok (scene r.2).

(** ** A host and inputs for the closed examples

    The statements below hold for every host.  The closed examples run on
    this one, which lists the keys of an object in the order of the
    map; none of their inputs has a string where a number is expected. *)

Definition example_host : Host :=
  {| StringToNumber := λ _, NaN;
     NumberToString := λ _, "NaN";
     string_lt := λ _ _, false;
     loadTexture := λ url, Some (Texture url);
     key_rank := λ _ _, 0%nat |}.

(** A material of a solid colour, and what [getMaterial] makes of it. *)
Definition grey : value := VObj {[ "color" := VInt 8421504 ]}.

Definition grey_lambert : material :=
  MeshLambertMaterial (VInt 8421504) true (VInt 1).

(** An instance with the built-in options, an empty model and nothing in
    the scene. *)
Definition plain : instance := MkInstance [] builtin_options [].

(** Scenario A: two sheets, of declared thickness 10 and 2, built with the
    built-in options; the instance after [build], and its model. *)
Definition scenario_A : instance :=
  MkInstance
    [ Element {[ "thickness" := VInt 10; "material" := grey ]};
      Element {[ "thickness" := VInt 2; "material" := grey ]} ]
    builtin_options [].

Definition scenario_A_built : instance :=
  match @build example_host 0 scenario_A with
  | Ok (_, s') => s'
  | _ => scenario_A
  end.


(** Scenario B: a unit element of 250 by 250, defaults resolved, to cover
    the built-in footprint of 500 by 500. *)
Definition scenario_B : gmap string value :=
  {[ "type" := VStr "unit"; "height" := VInt 250; "width" := VInt 250;
     "material" := grey ]} ∪ builtin_defaultElement.

(** Scenario C: a composite of two elements, of thickness 3 and 8. *)
Definition scenario_C : list layer :=
  [ Element {[ "thickness" := VInt 3 ]}; Element {[ "thickness" := VInt 8 ]} ].

(** A composite whose only member is itself a composite. *)
Definition nested_composite : layer :=
  Composite [ Composite [ Element {[ "thickness" := VInt 20 ]} ] ].

(** Options whose default element restates the footprint only, and a
    model of two void layers, the first of which declares no thickness. *)
Definition footprint_only : value :=
  VObj {[ "defaultElement" :=
            VObj {[ "height" := VInt 500; "width" := VInt 500 ]} ]}.

Definition gap_model : list layer :=
  [ Element {[ "type" := VStr "void" ]};
    Element {[ "type" := VStr "void"; "thickness" := VInt 10 ]} ].

(** Options whose default element restates the height only. *)
Definition height_only : gmap string value :=
  {[ "defaultElement" := VObj {[ "height" := VInt 100 ]} ]}.

(** A sheet that is smaller than the footprint and trimmed front and
    back. *)
Definition board : gmap string value :=
  {[ "name" := VStr "board"; "type" := VStr "sheet";
     "height" := VInt 100; "width" := VInt 100; "thickness" := VInt 12;
     "offset" := VObj {[ "front" := VInt 1; "back" := VInt 2 ]};
     "material" := grey ]}.

(** An element of a type the source does not know, and a frame. *)
Definition pane : gmap string value :=
  {[ "name" := VStr "pane"; "type" := VStr "glass"; "thickness" := VInt 10;
     "offset" := VObj builtin_offset; "material" := grey ]}.

Definition stud_frame : gmap string value :=
  {[ "name" := VStr "studs"; "type" := VStr "frame" ]}.

(** A model whose only layer names no material. *)
Definition wall_model : list layer := [ Element {[ "name" := VStr "wall" ]} ].




(** A unit element of height 0.3 under defaults of height 2.1, each
    number being the double that the literal denotes. *)
Definition unit_of_height_three_tenths : gmap string value :=
  {[ "type" := VStr "unit";
     "height" := VNum (Fin (5404319552844595 # 18014398509481984));
     "width" := VInt 250; "material" := grey ]} ∪ builtin_defaultElement.

Definition defaults_of_height_21_tenths : instance :=
  MkInstance []
    (<["defaultElement" :=
         VObj (<["height" := VNum (Fin (4728779608739021 # 2251799813685248))]>
                 builtin_defaultElement)]> builtin_options) [].

(** ** Vocabulary of the further properties *)

(** Undefined or null. *)
Definition nullish (v : value) : Prop := v = VUndef ∨ v = VNull.

(** Whether a model node holds an element, at any depth. *)
Fixpoint has_element (l : layer) : bool :=
  match l with
  | Elem _ _ => true
  | Composite ls => existsb has_element ls
  end.

(** A sequence of calls [on(event, handler)], first to last; it stops at
    the first call that throws. *)
Definition on_each {Handler : Type} (calls : list (string * Handler))
    (handlers : gmap string (list Handler)) : outcome (gmap string (list Handler)) :=
  foldl (λ acc '(event, handler), hs ← acc; on event handler hs) (Ok handlers) calls.

(** The handlers that [calls] register for [event], in order. *)
Definition registered {Handler : Type} (event : string)
    (calls : list (string * Handler)) : list Handler :=
  (filter (λ c, c.1 = event) calls).*2.

(** The instance with more objects in the scene. *)
Definition grows (s : instance) (added : list scene_child) : instance :=
  MkInstance (model s) (options s) (scene s ++ added).

(** [scene_blind m]: what [m] returns and what it adds to the scene
    depend on the options only, and adding to the scene is its only
    effect. *)
Definition scene_blind {A} (m : M A) : Prop :=
  ∀ s1 s2, options s1 = options s2 →
    match m s1, m s2 with
    | Ok (a1, t1), Ok (a2, t2) =>
        a1 = a2 ∧ ∃ added, t1 = grows s1 added ∧ t2 = grows s2 added
    | Throw e1, Throw e2 => e1 = e2
    | OutOfFuel, OutOfFuel => True
    | _, _ => False
    end.

(** A [THREE.BoundingBoxHelper], as opposed to an object of the model. *)
Definition is_helper (c : scene_child) : Prop :=
  match c with
  | BoundingBoxHelper _ _ => True
  | SceneObject _ => False
  end.

(** [instance.options.debug], as a condition. *)
Definition debugging (s : instance) : bool :=
  ToBoolean (default VUndef (options s !! "debug")).

(** [helpers_only m]: all that [m] does to the instance is to add
    bounding-box helpers to the scene, and none unless in debug mode. *)
Definition helpers_only {A} (m : M A) : Prop :=
  ∀ s a t, m s = Ok (a, t) →
    ∃ helpers, t = grows s helpers ∧ Forall is_helper helpers
               ∧ (debugging s = false → helpers = []).

(** ** Inputs for the closed examples of the further properties *)

(** A material that names a texture (the example host loads it) beside
    its colour. *)
Definition brick : gmap string value :=
  {[ "texture" := VStr "brick.png"; "color" := VInt 8421504 ]}.

(** Three registrations for two events; a handler is a number here. *)
Definition three_calls : list (string * nat) :=
  [ ("select", 1%nat); ("deselect", 2%nat); ("select", 3%nat) ].


(** An instance in debug mode whose model is Scenario B, the instance
    after [build], and the grid and the instance that
    [createUnitizedMesh] makes of Scenario B from an instance. *)
Definition debug_on : instance :=
  MkInstance [ Element scenario_B ] (<["debug" := VBool true]> builtin_options) [].

Definition debug_on_built : instance :=
  match @build example_host 10 debug_on with
  | Ok (_, s') => s'
  | _ => debug_on
  end.

Definition grid_of (s : instance) : object3d :=
  match @createUnitizedMesh example_host 10 scenario_B s with
  | Ok (grid, _) => grid
  | _ => Object3D [] origin
  end.

Definition gridded (s : instance) : instance :=
  match @createUnitizedMesh example_host 10 scenario_B s with
  | Ok (_, s') => s'
  | _ => s
  end.

(** What [buildLayer] returns for a layer, on the plain instance. *)
Definition built_of (l : layer) : option object3d :=
  match @buildLayer example_host 0 l plain with
  | Ok (r, _) => r
  | _ => None
  end.

(** A model with a frame as a top-level layer, and an instance whose
    options give [null] as the default element. *)
Definition framed : instance :=
  MkInstance [ Element board; Element stud_frame ] builtin_options [].

Definition without_defaults : instance :=
  MkInstance wall_model (<["defaultElement" := VNull]> builtin_options) [].

(** * Properties *)

(** ** Induction on layers *)

Lemma layer_ind' (P : layer → Prop) :
  (∀ o p, P (Elem o p)) →
  (∀ ls, Forall P ls → P (Composite ls)) →
  ∀ l, P l.
Proof.
  intros Helem Hcomp. fix IH 1. intros [o p|ls].
  - apply Helem.
  - apply Hcomp.
    induction ls as [|l ls IHls]; constructor; [apply IH | apply IHls].
Qed.

(** ** The monads *)

Module Monad.

Lemma bind_Ok {A B} (m : M A) (f : A → M B) s r :
  (m ≫= f) s = Ok r ↔ ∃ a s1, m s = Ok (a, s1) ∧ f a s1 = Ok r.
Proof.
  unfold mbind, M_bind. destruct (m s) as [[a s1]| |]; split.
  - eauto.
  - by intros (? & ? & [= <- <-] & ?).
  - done.
  - by intros (? & ? & ? & ?).
  - done.
  - by intros (? & ? & ? & ?).
Qed.

Lemma lift_Ok {A} (o : outcome A) s a s' :
  lift o s = Ok (a, s') ↔ o = Ok a ∧ s' = s.
Proof.
  unfold lift. destruct o; split; try done.
  - by intros [= <- <-].
  - by intros [[= <-] ->].
  - by intros [? ?].
  - by intros [? ?].
Qed.

Lemma option_get_Ok key s v s' :
  option_get key s = Ok (v, s') ↔ v = default VUndef (options s !! key) ∧ s' = s.
Proof. unfold option_get. split; [by intros [= <- <-] | by intros [-> ->]]. Qed.

Lemma ret_Ok {A} (a : A) s r : (mret a : M A) s = Ok r ↔ r = (a, s).
Proof. unfold mret, M_ret. split; [by intros [= <-] | by intros ->]. Qed.



Lemma foldM_app {A B} (f : B → A → M B) (l1 l2 : list A) (b : B) s :
  foldM f (l1 ++ l2)%list b s = (foldM f l1 b ≫= foldM f l2) s.
Proof.
  revert b s. induction l1 as [|a l1 IH]; intros b s; simpl; [done|].
  unfold mbind, M_bind. destruct (f b a s) as [[b' s']| |]; [|done..].
  apply IH.
Qed.


Lemma bind_run {A B} (m : M A) (f : A → M B) s a s1 :
  m s = Ok (a, s1) → (m ≫= f) s = f a s1.
Proof. unfold mbind, M_bind. by intros ->. Qed.


End Monad.

(** ** Loops *)

Module Loops.
Section WithHost.
Context `{Host}.










End WithHost.
End Loops.

(** ** Default resolution and the constructor's options *)

Module Defaults.
Section WithHost.
Context `{Host}.

(** Filling in absent keys one by one: a key keeps the value the object
    had, and otherwise takes the first value listed for it. *)
Lemma fill_lookup (l : list (string * value)) (o : gmap string value) key :
  fill_missing o l !! key
  = match o !! key with
    | Some v => Some v
    | None => (list_to_map l : gmap string value) !! key
    end.
Proof.
  unfold fill_missing.
  revert o. induction l as [|[k0 v0] l IH]; intros o; simpl.
  - rewrite lookup_empty. by destruct (o !! key).
  - rewrite IH. case_decide as Hk0.
    + destruct (o !! key) eqn:Hk; [done|].
      rewrite lookup_insert_ne; [done|].
      intros ->. rewrite Hk in Hk0. by destruct Hk0.
    + destruct (decide (k0 = key)) as [->|Hne].
      * rewrite !lookup_insert_eq. destruct (o !! key) eqn:Hk; [|done].
        exfalso. apply Hk0. eauto.
      * by rewrite !lookup_insert_ne.
Qed.

(** The order of [Object.keys] is an order of the own properties. *)
Lemma keys_in_order_perm (o : gmap string value) :
  keys_in_order o ≡ₚ map_to_list o.
Proof. apply merge_sort_Permutation. Qed.

Lemma keys_in_order_NoDup (o : gmap string value) : NoDup (keys_in_order o).*1.
Proof. rewrite keys_in_order_perm. apply NoDup_fst_map_to_list. Qed.

Lemma keys_in_order_to_map (o : gmap string value) :
  list_to_map (keys_in_order o) = o.
Proof.
  rewrite <- (list_to_map_to_list o) at 2.
  apply list_to_map_proper; [apply keys_in_order_NoDup|apply keys_in_order_perm].
Qed.

Lemma keys_in_order_elem (o : gmap string value) key v :
  (key, v) ∈ keys_in_order o ↔ o !! key = Some v.
Proof. rewrite keys_in_order_perm. apply elem_of_map_to_list. Qed.

Lemma keys_in_order_nil (o : gmap string value) : keys_in_order o = [] → o = ∅.
Proof.
  intros Hnil. apply map_to_list_empty_iff. apply Permutation_nil_r.
  rewrite <- Hnil. symmetry. apply keys_in_order_perm.
Qed.

Lemma keys_in_order_absent (o : gmap string value) key :
  o !! key = None → key ∉ (keys_in_order o).*1.
Proof.
  intros Hk ([k v] & -> & Hin)%list_elem_of_fmap.
  apply keys_in_order_elem in Hin. simpl in Hk. congruence.
Qed.

(** Own properties are never removed by an assignment. *)
Lemma assign_keeps (x : gmap string value * prototype) k v key :
  is_Some (x.1 !! key) → is_Some ((assign x k v).1 !! key).
Proof.
  destruct x as [o p]. unfold assign. simpl. intros Hkey.
  assert (Hins : is_Some (<[k := v]> o !! key)).
  { destruct (decide (k = key)) as [->|Hne].
    - rewrite lookup_insert_eq. eauto.
    - by rewrite lookup_insert_ne. }
  case_decide; [|done].
  destruct (has_own o "__proto__"); [done|].
  destruct p as [| |pm]; [done..|]. by destruct (has_own pm "__proto__").
Qed.

(** An assignment to a key other than [__proto__], seen at another key. *)
Lemma assign_lookup_ne (x : gmap string value * prototype) k v key :
  k ≠ key → (assign x k v).1 !! key = x.1 !! key.
Proof.
  destruct x as [o p]. unfold assign. simpl. intros Hne.
  assert (Hins : <[k := v]> o !! key = o !! key) by (by rewrite lookup_insert_ne).
  case_decide; [|done].
  destruct (has_own o "__proto__"); [done|].
  destruct p as [| |pm]; [done..|]. by destruct (has_own pm "__proto__").
Qed.

Lemma assign_ordinary (o : gmap string value) (p : prototype) k v :
  k ≠ "__proto__" → assign (o, p) k v = (<[k := v]> o, p).
Proof. intros Hk. unfold assign. by rewrite decide_False. Qed.

(** Assigning the entries of a list without repeated keys to an object,
    seen at a key other than [__proto__]. *)
Lemma assign_lookup (l : list (string * value))
    (x : gmap string value * prototype) key :
  NoDup l.*1 → key ≠ "__proto__" →
  (foldl (λ x '(key, v), assign x key v) x l).1 !! key
  = match (list_to_map l : gmap string value) !! key with
    | Some v => Some v
    | None => x.1 !! key
    end.
Proof.
  intros Hnd Hkey. revert x Hnd.
  induction l as [|[k0 v0] l IH]; intros x Hnd; simpl.
  - by rewrite lookup_empty.
  - inversion Hnd as [|? ? Hk0 Hnd']; subst. rewrite IH by done.
    destruct (decide (k0 = key)) as [->|Hne].
    + rewrite lookup_insert_eq.
      rewrite (not_elem_of_list_to_map_1 _ _ Hk0).
      destruct x as [o p]. rewrite assign_ordinary by done. simpl.
      by rewrite lookup_insert_eq.
    + rewrite lookup_insert_ne by done. by rewrite assign_lookup_ne.
Qed.

(** Assigning entries none of which is for [__proto__]. *)
Lemma assign_plain (l : list (string * value)) (o : gmap string value)
    (p : prototype) :
  "__proto__" ∉ l.*1 →
  foldl (λ x '(key, v), assign x key v) (o, p) l
  = (foldl (λ o '(key, v), <[key := v]> o) o l, p).
Proof.
  revert o. induction l as [|[k0 v0] l IH]; intros o Hl; cbn [foldl]; [done|].
  simpl in Hl. apply not_elem_of_cons in Hl as [Hk0 Hl].
  rewrite assign_ordinary by done. by apply IH.
Qed.

(** Assigning the entries of a list without repeated keys to an object
    whose prototype is [Object.prototype] creates no property
    [__proto__]. *)
Lemma assign_proto (l : list (string * value)) :
  ∀ (o : gmap string value) (p : prototype),
  NoDup l.*1 → o !! "__proto__" = None →
  p = ObjectPrototype ∨ "__proto__" ∉ l.*1 →
  (foldl (λ x '(key, v), assign x key v) (o, p) l).1 !! "__proto__" = None.
Proof.
  induction l as [|[k0 v0] l IH]; intros o p Hnd Ho Hp; cbn [foldl]; [done|].
  inversion Hnd as [|? ? Hk0 Hnd']; subst. simpl in Hp.
  destruct (decide (k0 = "__proto__")) as [->|Hne].
  - destruct Hp as [->|Hp]; [|by destruct Hp; left].
    unfold assign. rewrite decide_True by done.
    unfold has_own. rewrite bool_decide_eq_false_2
      by (rewrite Ho; by intros [? ?]).
    apply IH; [done|done|by right].
  - rewrite assign_ordinary by done. apply IH; [done| |].
    + by rewrite lookup_insert_ne.
    + destruct Hp as [->|Hp]; [by left|right].
      intros Hin. apply Hp. by right.
Qed.

Lemma has_own_fill (o : gmap string value) (l : list (string * value)) key :
  key ∉ l.*1 → has_own (fill_missing o l) key = has_own o key.
Proof.
  intros Hkey. unfold has_own. rewrite fill_lookup.
  destruct (o !! key) eqn:Ho; [done|].
  by rewrite (not_elem_of_list_to_map_1 _ _ Hkey).
Qed.

(** A run of the loop of [applyModelDefaults] over keys that are neither
    [hasOwnProperty] nor [__proto__]. *)
Lemma fill_default_ordinary (l : list (string * value)) :
  ∀ (o : gmap string value) (p : prototype),
  Forall (λ e, ordinary e.1) l →
  inherits_hasOwnProperty o p = true →
  foldO fill_default l (o, p) = Ok (fill_missing o l, p).
Proof.
  induction l as [|[k0 v0] l IH]; intros o p Hl Hcall; [done|].
  apply Forall_cons in Hl as [[Hk0 Hk0'] Hl]. simpl in Hk0, Hk0'.
  change (foldO fill_default ((k0, v0) :: l) (o, p))
    with (fill_default (o, p) (k0, v0) ≫= foldO fill_default l).
  change (fill_missing o ((k0, v0) :: l))
    with (fill_missing (if decide (is_Some (o !! k0)) then o
                        else <[k0 := v0]> o) l).
  unfold fill_default. cbn [fst snd]. rewrite Hcall.
  unfold has_own. case_decide as Hown.
  - rewrite bool_decide_eq_true_2 by done. cbn [mbind outcome_bind].
    by apply IH.
  - rewrite bool_decide_eq_false_2 by done. cbn [mbind outcome_bind].
    rewrite assign_ordinary by done. apply IH; [done|].
    unfold inherits_hasOwnProperty, has_own in *.
    by rewrite lookup_insert_ne.
Qed.

Lemma fill_default_shadowed (l : list (string * value))
    (o : gmap string value) (p : prototype) :
  inherits_hasOwnProperty o p = false → l ≠ [] →
  foldO fill_default l (o, p) = Throw TypeError.
Proof.
  intros Hcall Hl. destruct l as [|e l]; [done|]. simpl.
  unfold fill_default. simpl. by rewrite Hcall.
Qed.

(** A run of the loop that ends keeps the properties of the element. *)
Lemma fill_default_keeps (l : list (string * value)) :
  ∀ (o : gmap string value) (p : prototype) (o' : gmap string value)
    (p' : prototype),
  foldO fill_default l (o, p) = Ok (o', p') →
  ∀ key v, o !! key = Some v → o' !! key = Some v.
Proof.
  induction l as [|[k0 v0] l IH]; intros o p o' p' Hrun key v Hk;
    cbn [foldO] in Hrun.
  - injection Hrun as <- <-. done.
  - destruct (fill_default (o, p) (k0, v0)) as [[o1 p1]| |] eqn:Hstep;
      cbn [mbind outcome_bind] in Hrun; [|done..].
    apply (IH _ _ _ _ Hrun).
    unfold fill_default in Hstep. cbn [fst snd] in Hstep.
    destruct (inherits_hasOwnProperty o p); [|done].
    unfold has_own in Hstep. case_bool_decide as Hown.
    + by injection Hstep as <- <-.
    + assert (Hst : assign (o, p) k0 v0 = (o1, p1)) by congruence.
      pose proof (assign_lookup_ne (o, p) k0 v0 key) as E.
      rewrite Hst in E. cbn [fst] in E. rewrite E; [done|].
      intros ->. apply Hown. rewrite Hk. eauto.
Qed.

Lemma apply_keeps (defaults : value) (o : gmap string value) (p : prototype) l' :
  applyModelDefaults (Elem o p) defaults = Ok l' →
  ∃ o' p', l' = Elem o' p' ∧ ∀ key v, o !! key = Some v → o' !! key = Some v.
Proof.
  cbn [applyModelDefaults]. intros Hrun.
  destruct (own_entries defaults) as [entries| |]; [|done..].
  cbn [mbind outcome_bind] in Hrun.
  destruct (foldO fill_default entries (o, p)) as [[o' p']| |] eqn:Hfold;
    cbn [mbind outcome_bind fst snd] in Hrun; [|done..].
  injection Hrun as <-. exists o', p'. split; [done|].
  by apply (fill_default_keeps _ _ _ _ _ Hfold).
Qed.

(** An own property is what a read sees. *)
Lemma view_own (o : gmap string value) (p : prototype) key v :
  o !! key = Some v → view o p !! key = Some v.
Proof.
  intros Hk. destruct p as [| |pm]; [done..|]. by apply lookup_union_Some_l.
Qed.

(** A run of the loop that ends, over any keys. *)
Lemma fill_default_inv (l : list (string * value)) :
  ∀ (o : gmap string value) (p : prototype) (o' : gmap string value)
    (p' : prototype),
  NoDup l.*1 →
  foldO fill_default l (o, p) = Ok (o', p') →
  (∀ key v, o !! key = Some v → o' !! key = Some v)
  ∧ (∀ key, key ≠ "__proto__" → o !! key = None →
       o' !! key = (list_to_map l : gmap string value) !! key)
  ∧ ("__proto__" ∉ l.*1 → p' = p ∧ o' !! "__proto__" = o !! "__proto__").
Proof.
  induction l as [|[k0 v0] l IH]; intros o p o' p' Hnd Hrun; simpl in Hrun.
  - injection Hrun as <- <-. split; [done|]. split; [|done].
    intros key _ Hk. rewrite Hk. symmetry. apply lookup_empty.
  - inversion Hnd as [|? ? Hk0 Hnd']; subst.
    destruct (fill_default (o, p) (k0, v0)) as [[o1 p1]| |] eqn:Hstep;
      simpl in Hrun; [|done..].
    destruct (IH _ _ _ _ Hnd' Hrun) as (Hkept & Hnew & Hproto).
    unfold fill_default in Hstep. cbn [fst snd] in Hstep.
    destruct (inherits_hasOwnProperty o p); [|done].
    unfold has_own in Hstep. case_bool_decide as Hown.
    + injection Hstep as <- <-. split; [done|]. split.
      * intros key Hkey Hk. rewrite Hnew by done.
        rewrite list_to_map_cons, lookup_insert_ne; [done|].
        intros ->. rewrite Hk in Hown. by destruct Hown.
      * intros Hl. simpl in Hl. apply not_elem_of_cons in Hl as [_ Hl].
        by apply Hproto.
    + assert (Hst : assign (o, p) k0 v0 = (o1, p1)) by congruence.
      clear Hstep. rename Hst into Hstep.
      assert (Ho1 : ∀ key, k0 ≠ key → o1 !! key = o !! key).
      { intros key Hne.
        pose proof (assign_lookup_ne (o, p) k0 v0 key Hne) as E.
        by rewrite Hstep in E. }
      split; [|split].
      * intros key v Hk. apply Hkept. rewrite Ho1; [done|].
        intros ->. apply Hown. rewrite Hk. eauto.
      * intros key Hkey Hk. rewrite list_to_map_cons.
        destruct (decide (k0 = key)) as [->|Hne].
        -- rewrite lookup_insert_eq. apply Hkept.
           rewrite assign_ordinary in Hstep by done.
           injection Hstep as <- _. by rewrite lookup_insert_eq.
        -- rewrite lookup_insert_ne by done. apply Hnew; [done|].
           by rewrite Ho1.
      * intros Hl. simpl in Hl. apply not_elem_of_cons in Hl as [Hne Hl].
        destruct (Hproto Hl) as [-> ->].
        rewrite assign_ordinary in Hstep by done. injection Hstep as <- <-.
        split; [done|]. by rewrite lookup_insert_ne.
Qed.

Lemma mapO_Forall2 {A B} (f : A → outcome B) (l : list A) (l' : list B) :
  mapO f l = Ok l' ↔ Forall2 (λ a b, f a = Ok b) l l'.
Proof.
  revert l'. induction l as [|a l IH]; intros l'; simpl.
  - split; [intros [= <-]; constructor | by inversion 1].
  - destruct (f a) as [b| |] eqn:Ha; simpl.
    + destruct (mapO f l) as [bs| |] eqn:Hl; simpl.
      * split; [intros [= <-]; constructor; [done|by apply IH]|].
        inversion 1 as [|? b' ? bs' Hb Hbs]; subst.
        apply IH in Hbs. congruence.
      * split; [done|]. inversion 1 as [|? b' ? bs' Hb Hbs]; subst.
        by apply IH in Hbs.
      * split; [done|]. inversion 1 as [|? b' ? bs' Hb Hbs]; subst.
        by apply IH in Hbs.
    + split; [done|]. inversion 1; congruence.
    + split; [done|]. inversion 1; congruence.
Qed.

Lemma fill_missing_union (o d : gmap string value) :
  fill_missing o (keys_in_order d) = o ∪ d.
Proof.
  apply map_eq. intros key. rewrite fill_lookup, keys_in_order_to_map.
  destruct (o !! key) as [v|] eqn:Hk.
  - symmetry. by apply lookup_union_Some_l.
  - symmetry. by rewrite lookup_union_r.
Qed.

Lemma ordinary_entries (d : gmap string value) :
  d !! "hasOwnProperty" = None → d !! "__proto__" = None →
  Forall (λ e, ordinary e.1) (keys_in_order d).
Proof.
  intros Hd1 Hd2. apply Forall_forall. intros [k v] Hin%keys_in_order_elem.
  simpl. split; intros ->; congruence.
Qed.

(** Default resolution in closed form, for defaults without a key
    [hasOwnProperty] or [__proto__]. *)
Lemma applyModelDefaults_ordinary (d : gmap string value) (l : layer) :
  d !! "hasOwnProperty" = None → d !! "__proto__" = None →
  callable l = true →
  applyModelDefaults l (VObj d) = Ok (with_defaults d l).
Proof.
  intros Hd1 Hd2.
  induction l as [o p|ls IH] using layer_ind'; intros Hcall; simpl in Hcall.
  - cbn [applyModelDefaults own_entries mbind outcome_bind].
    rewrite fill_default_ordinary by (done || by apply ordinary_entries).
    cbn [mbind outcome_bind fst snd with_defaults].
    by rewrite fill_missing_union.
  - cbn [applyModelDefaults with_defaults].
    assert (mapO (λ element, applyModelDefaults element (VObj d)) ls
            = Ok (with_defaults d <$> ls)) as ->; [|done].
    induction IH as [|l ls Hl _ IHls]; [done|].
    simpl in Hcall. apply andb_prop in Hcall as [Hc1 Hc2].
    cbn [mapO]. rewrite (Hl Hc1). cbn [mbind outcome_bind].
    rewrite (IHls Hc2). done.
Qed.

Lemma mapO_ordinary (d : gmap string value) (ls : list layer) :
  d !! "hasOwnProperty" = None → d !! "__proto__" = None →
  forallb callable ls = true →
  mapO (λ element, applyModelDefaults element (VObj d)) ls
  = Ok (with_defaults d <$> ls).
Proof.
  intros Hd1 Hd2 Hcall.
  pose proof (applyModelDefaults_ordinary d (Composite ls) Hd1 Hd2 Hcall) as Hrun.
  cbn [applyModelDefaults with_defaults] in Hrun.
  destruct (mapO _ ls) as [ls'| |]; simpl in Hrun; congruence.
Qed.

(** [build] on a model that default resolution completes on. *)
Lemma build_resolves fuel s (d : gmap string value) :
  options s !! "defaultElement" = Some (VObj d) →
  d !! "hasOwnProperty" = None → d !! "__proto__" = None →
  forallb callable (model s) = true →
  build fuel s
  = ('(group, _) ← foldM (build_step fuel) (with_defaults d <$> model s)
                     ([], VInt 0);
     scene_add (SceneObject (Object3D group origin)))
      (MkInstance (with_defaults d <$> model s) (options s) (scene s)).
Proof.
  intros Hd Hd1 Hd2 Hcall. unfold build.
  rewrite (Monad.bind_run _ _ s (model s) s) by done.
  rewrite (Monad.bind_run _ _ s (VObj d) s)
    by (unfold option_get; by rewrite Hd).
  rewrite (Monad.bind_run _ _ s (with_defaults d <$> model s) s)
    by (unfold lift; by rewrite mapO_ordinary).
  rewrite (Monad.bind_run _ _ s tt
             (MkInstance (with_defaults d <$> model s) (options s) (scene s)))
    by done.
  reflexivity.
Qed.

(** The own properties of the options, in closed form. *)
Lemma Section_options_object (o : gmap string value) :
  Section_options (VObj o) = Ok (delete "__proto__" o ∪ builtin_options).
Proof.
  unfold Section_options. cbn [ToBoolean own_entries mbind outcome_bind].
  f_equal.
  set (opts := (foldl (λ x '(key, v), assign x key v)
                  (builtin_options, ObjectPrototype) (keys_in_order o)).1).
  apply map_eq. intros key. destruct (decide (key = "__proto__")) as [->|Hkey].
  - unfold opts. rewrite assign_proto;
      [|apply keys_in_order_NoDup|reflexivity|by left].
    symmetry. apply lookup_union_None.
    split; [apply lookup_delete_eq|reflexivity].
  - unfold opts.
    rewrite assign_lookup by (done || apply keys_in_order_NoDup).
    rewrite keys_in_order_to_map. destruct (o !! key) as [v|] eqn:Hk.
    + symmetry. apply lookup_union_Some_l. by rewrite lookup_delete_ne.
    + symmetry. rewrite lookup_union_r; [done|].
      by rewrite lookup_delete_ne.
Qed.

(** What [applyModelDefaults] has done to an element when it returns. *)
Lemma apply_Elem (d o : gmap string value) (p : prototype) l' :
  applyModelDefaults (Elem o p) (VObj d) = Ok l' →
  ∃ o' p', l' = Elem o' p'
    ∧ (∀ key v, o !! key = Some v → o' !! key = Some v)
    ∧ (∀ key, key ≠ "__proto__" → o !! key = None → o' !! key = d !! key)
    ∧ (d !! "__proto__" = None → p' = p ∧ o' !! "__proto__" = o !! "__proto__").
Proof.
  simpl. intros Hrun.
  destruct (foldO fill_default (keys_in_order d) (o, p)) as [[o' p']| |] eqn:Hfold;
    simpl in Hrun; [|done..].
  injection Hrun as <-. exists o', p'. split; [done|].
  destruct (fill_default_inv _ _ _ _ _ (keys_in_order_NoDup d) Hfold)
    as (Hkept & Hnew & Hproto).
  rewrite keys_in_order_to_map in Hnew.
  split; [done|]. split; [done|].
  intros Hd. by apply Hproto, keys_in_order_absent.
Qed.

(** The elements on which [applyModelDefaults] returns. *)
Lemma apply_callable (d : gmap string value) (l : layer) :
  callable l = true →
  d !! "hasOwnProperty" = None → d !! "__proto__" = None →
  ∃ l', applyModelDefaults l (VObj d) = Ok l'.
Proof.
  intros Hcall Hd1 Hd2.
  assert (Hkeys : Forall (λ e, ordinary e.1) (keys_in_order d)).
  { apply Forall_forall. intros [k v] Hin%keys_in_order_elem. simpl.
    split; intros ->; congruence. }
  induction l as [o p|ls IH] using layer_ind'; simpl in *.
  - rewrite fill_default_ordinary by done. simpl. eauto.
  - assert (∃ ls', mapO (λ element, applyModelDefaults element (VObj d)) ls
                   = Ok ls') as [ls' ->]; [|simpl; eauto].
    induction IH as [|l ls Hl _ IHls]; simpl; [eauto|].
    simpl in Hcall. apply andb_prop in Hcall as [Hc1 Hc2].
    destruct (Hl Hc1) as [l' ->]. destruct (IHls Hc2) as [ls' ->].
    simpl. eauto.
Qed.

(** C4. For every model, however deeply its composites nest, and every
    defaults record: when default resolution returns, every leaf
    element of its result has every key of the defaults record as an
    own property, keeps the value of every property it already had, and
    carries the default in every property it lacked (the key
    [__proto__] apart, whose assignment sets the prototype of the
    element); it returns whenever [hasOwnProperty] can be called on
    every element and the defaults have no own property
    [hasOwnProperty] or [__proto__]; and on an element that shadows
    [hasOwnProperty] it throws a TypeError as soon as the defaults have
    a key. *)
Theorem default_completeness (d : gmap string value) (l : layer) :
  (∀ l', applyModelDefaults l (VObj d) = Ok l' → resolved d l l')
  ∧ (callable l = true →
     d !! "hasOwnProperty" = None → d !! "__proto__" = None →
     ∃ l', applyModelDefaults l (VObj d) = Ok l')
  ∧ (∀ o p, inherits_hasOwnProperty o p = false → d ≠ ∅ →
       applyModelDefaults (Elem o p) (VObj d) = Throw TypeError).
Proof.
  split; [|split].
  - induction l as [o p|ls IH] using layer_ind'; intros l' Hrun.
    + apply apply_Elem in Hrun as (o' & p' & -> & Hkept & Hnew & Hproto).
      constructor; [|done..].
      intros key Hkey [v Hv]. destruct (o !! key) as [w|] eqn:Hk.
      * rewrite (Hkept _ _ Hk). eauto.
      * rewrite Hnew, Hv by done. eauto.
    + simpl in Hrun.
      destruct (mapO _ ls) as [ls'| |] eqn:Hls; simpl in Hrun; [|done..].
      injection Hrun as <-. constructor.
      apply mapO_Forall2 in Hls. clear -IH Hls.
      induction Hls as [|l l' ls ls' Hl _ IHls]; [constructor|].
      apply Forall_cons in IH as [IHl IH]. constructor; [by apply IHl|].
      by apply IHls.
  - apply apply_callable.
  - intros o p Hcall Hd. simpl.
    rewrite fill_default_shadowed; [done|done|].
    intros Hnil. by apply keys_in_order_nil in Hnil.
Qed.

(** C10. The options the constructor is given override the built-in ones
    key by key and whole: a key of the given record, other than
    [__proto__] (which sets the prototype of the options and creates no
    option), carries the given value as it is, a key absent from it
    keeps the built-in value, and so a given [defaultElement] is the
    default element as it is given: a field of the built-in default
    element that it lacks reads as undefined. *)
Theorem options_override_shallow (o : gmap string value) :
  ∃ opts, Section_options (VObj o) = Ok opts
    ∧ opts = delete "__proto__" o ∪ builtin_options
    ∧ (∀ key v, key ≠ "__proto__" → o !! key = Some v → opts !! key = Some v)
    ∧ (∀ key, o !! key = None → opts !! key = builtin_options !! key)
    ∧ (∀ de key, o !! "defaultElement" = Some (VObj de) →
         is_Some (builtin_defaultElement !! key) → de !! key = None →
         opts !! "defaultElement" = Some (VObj de)
         ∧ get (default VUndef (opts !! "defaultElement")) key = Ok VUndef).
Proof.
  eexists. split; [apply Section_options_object|]. split; [done|].
  assert (Hgiven : ∀ key v, key ≠ "__proto__" → o !! key = Some v →
            (delete "__proto__" o ∪ builtin_options) !! key = Some v).
  { intros key v Hkey Hk. apply lookup_union_Some_l.
    by rewrite lookup_delete_ne. }
  split; [exact Hgiven|]. split.
  - intros key Hk. rewrite lookup_union_r; [done|].
    destruct (decide (key = "__proto__")) as [->|Hkey].
    + apply lookup_delete_eq.
    + by rewrite lookup_delete_ne.
  - intros de key Hde _ Hkey. rewrite (Hgiven "defaultElement" (VObj de) ltac:(done) Hde).
    split; [done|]. simpl. by rewrite Hkey.
Qed.

End WithHost.

(** A default element that restates the height only. *)
Lemma options_override_shallow_witness :
  ∃ opts, @Section_options example_host (VObj height_only) = Ok opts
    ∧ opts !! "defaultElement" = Some (VObj {[ "height" := VInt 100 ]})
    ∧ opts !! "fps" = builtin_options !! "fps"
    ∧ get (default VUndef (opts !! "defaultElement")) "thickness" = Ok VUndef.
Proof.
  destruct (@options_override_shallow example_host height_only)
    as (opts & Hrun & _ & Hgiven & Hkept & Hlost).
  exists opts. split; [exact Hrun|].
  split; [apply Hgiven; [done|vm_compute; reflexivity]|].
  split; [apply Hkept; vm_compute; reflexivity|].
  apply (Hlost {[ "height" := VInt 100 ]}); vm_compute; eauto.
Defined.

End Defaults.

(** ** Thickness resolution *)

Module Thickness.
Section WithHost.
Context `{Host}.


(** Taking the thicker of two finite thicknesses, as the reducer of
    [build] does, and flooring a finite thickness at 5. *)
Lemma thicker_finite (a b : Q) :
  (if js_lt (VNum (Fin a)) (VNum (Fin b)) then VNum (Fin b) else VNum (Fin a))
  = VNum (Fin (Qmax a b)).
Proof.
  unfold js_lt, Qmax, GenericMinMax.gmax. simpl. by destruct (a ?= b)%Q.
Qed.

Lemma floor_finite (t : Q) :
  (if js_lt (VNum (Fin t)) (VInt 5) then VInt 5 else VNum (Fin t))
  = VNum (Fin (Qmax t 5)).
Proof. apply thicker_finite. Qed.

Lemma thickness_Element (o : gmap string value) (t : Q) :
  field o "thickness" = VNum (Fin t) →
  layer_thickness (Element o) = VNum (Fin (Qmax t 5)).
Proof.
  intros Ht. unfold layer_thickness. cbn [view]. rewrite Ht. apply floor_finite.
Qed.


(** An element without a thickness passes the flooring test unchanged. *)
Lemma undefined_thickness_unfloored (o : gmap string value) :
  field o "thickness" = VUndef → layer_thickness (Element o) = VUndef.
Proof. intros Ht. unfold layer_thickness. cbn [view]. by rewrite Ht. Qed.

Lemma reduce_thickest (ls : list layer) (acc : Q) :
  Forall (λ member, layer_get member "thickness" = VUndef
                    ∨ ∃ t, layer_get member "thickness" = VNum (Fin t)) ls →
  foldl (λ last current,
           if js_lt last (layer_get current "thickness")
           then layer_get current "thickness" else last) (VNum (Fin acc)) ls
  = VNum (Fin (foldl Qmax acc (direct_thicknesses ls))).
Proof.
  intros Hall. revert acc.
  induction Hall as [|member ls [Hm|[t Hm]] _ IH]; intros acc; simpl; [done|..].
  - unfold direct_thicknesses. simpl. rewrite Hm. simpl. apply IH.
  - unfold direct_thicknesses. simpl. rewrite Hm. simpl.
    rewrite thicker_finite. apply IH.
Qed.

Lemma foldr_max_shift (ts : list Q) (a t : Q) :
  (foldr Qmax (Qmax a t) ts == Qmax t (foldr Qmax a ts))%Q.
Proof.
  induction ts as [|u ts IH]; simpl.
  - apply Q.max_comm.
  - rewrite IH. rewrite !Q.max_assoc. by rewrite (Q.max_comm u t).
Qed.

Lemma foldr_max_compat (ts : list Q) (x y : Q) :
  (x == y)%Q → (foldr Qmax x ts == foldr Qmax y ts)%Q.
Proof.
  intros Hxy. induction ts as [|u ts IH]; simpl; [done|]. by rewrite IH.
Qed.

Lemma foldl_max_foldr (ts : list Q) (a b : Q) :
  (Qmax (foldl Qmax a ts) b == foldr Qmax (Qmax a b) ts)%Q.
Proof.
  revert a. induction ts as [|t ts IH]; intros a; simpl; [reflexivity|].
  rewrite IH. rewrite <- foldr_max_shift.
  apply foldr_max_compat. rewrite <- !Q.max_assoc. by rewrite (Q.max_comm t b).
Qed.

(** C5. The thickness of a composite layer whose members' [thickness]
    fields are finite numbers, or absent as on a member that is itself
    a composite, is the greatest of those direct fields, floored at 5;
    the members of a nested composite are not looked into. *)
Theorem composite_thickness (ls : list layer) :
  Forall (λ member, layer_get member "thickness" = VUndef
                    ∨ ∃ t, layer_get member "thickness" = VNum (Fin t)) ls →
  ∃ r, layer_thickness (Composite ls) = VNum (Fin r)
       ∧ (r == foldr Qmax 5 (direct_thicknesses ls))%Q.
Proof.
  intros Hall. eexists. split.
  - unfold layer_thickness. change (VInt 0) with (VNum (Fin 0)).
    rewrite (reduce_thickest ls 0 Hall). apply floor_finite.
  - rewrite foldl_max_foldr. by apply foldr_max_compat.
Qed.

Example scenario_C_thickness :
  layer_thickness (Composite scenario_C) = VInt 8.
Proof. vm_compute. reflexivity. Qed.

Example nested_composite_thickness :
  layer_thickness nested_composite = VInt 5.
Proof. vm_compute. reflexivity. Qed.

End WithHost.

(** Scenario C: thicknesses 3 and 8 give 8. *)
Lemma composite_thickness_witness :
  Forall (λ member, layer_get member "thickness" = VUndef
                    ∨ ∃ t, layer_get member "thickness" = VNum (Fin t))
         scenario_C
  ∧ ∃ r, @layer_thickness example_host (Composite scenario_C) = VNum (Fin r)
         ∧ (r == 8)%Q.
Proof.
  assert (Hall : Forall (λ member, layer_get member "thickness" = VUndef
                    ∨ ∃ t, layer_get member "thickness" = VNum (Fin t))
                   scenario_C).
  { constructor; [right; eexists; reflexivity|].
    constructor; [right; eexists; reflexivity|]. constructor. }
  split; [exact Hall|].
  destruct (@composite_thickness example_host scenario_C Hall) as (r & Hr & Hmax).
  exists r. split; [exact Hr|]. rewrite Hmax. vm_compute. reflexivity.
Defined.

End Thickness.


(** ** Stack assembly *)

Module Stacking.
Import Monad.
Section WithHost.
Context `{Host}.



Lemma build_step_inv fuel group total l s r s' :
  build_step fuel (group, total) l s = Ok (r, s') →
  ∃ mesh, buildLayer fuel l s = Ok (Some mesh, s')
    ∧ r = ((group ++ [position_set mesh
               (Vector3 (VInt 0) (VInt 0)
                  (js_add total (js_div (layer_thickness l) (VInt 2))))])%list,
           js_add total (js_or (layer_thickness l) (VInt 0))).
Proof.
  unfold build_step. intros Hrun.
  apply bind_Ok in Hrun as ([mesh|] & s1 & Hmesh & Hrun); [|done].
  apply ret_Ok in Hrun. simplify_eq. eauto.
Qed.

Lemma position_set_of m p : position_of (position_set m p) = p.
Proof. by destruct m. Qed.







(** C2 (defect). A layer that reaches [build] without a thickness (here
    the first of two void layers, under a default element that restates
    the footprint only) is given the thickness undefined, which the
    flooring test lets through: its volume is centred at NaN and the
    offset advances by 0, so that the next layer starts at 0.  The same
    element inside a composite is floored to 5. *)
Theorem undefined_thickness_escapes_floor :
  layer_thickness (Element {[ "type" := VStr "void" ]}) = VUndef
  ∧ layer_thickness (Composite [Element {[ "type" := VStr "void" ]}]) = VInt 5
  ∧ run 0 gap_model footprint_only
    = Ok [SceneObject (Object3D
            [Object3D [] (Vector3 (VInt 0) (VInt 0) (VNum NaN));
             Object3D [] (Vector3 (VInt 0) (VInt 0) (VNum (Fin (10 # 2))))]
            origin)].
Proof.
  split; [vm_compute; reflexivity|]. split; [vm_compute; reflexivity|].
  unfold run, Section_new, footprint_only.
  rewrite Defaults.Section_options_object. cbn [mbind outcome_bind].
  rewrite (Defaults.build_resolves _ _ {[ "height" := VInt 500; "width" := VInt 500 ]})
    by (vm_compute; reflexivity).
  vm_compute. reflexivity.
Qed.

End WithHost.


End Stacking.



(** ** Rounding to a double *)

Module Rounding.








(** The literals 2.1, 0.3 and 0.1 denote the doubles nearest to them,
    and [Math.ceil(2.1 / 0.3)] is 8, [Math.ceil(300 / 0.3)] is 1000, as
    in double arithmetic; the ceilings of the exact quotients of those
    doubles are 8 and 1001. *)
Example binary64_literals :
  binary64 (21 # 10) = Fin (4728779608739021 # 2251799813685248)
  ∧ binary64 (3 # 10) = Fin (5404319552844595 # 18014398509481984)
  ∧ binary64 (1 # 10) = Fin (7205759403792794 # 72057594037927936)
  ∧ tiles (4728779608739021 # 2251799813685248)
          (5404319552844595 # 18014398509481984) = Fin (inject_Z 8)
  ∧ tiles 300 (5404319552844595 # 18014398509481984) = Fin (inject_Z 1000)
  ∧ Qceiling (300 / (5404319552844595 # 18014398509481984)) = 1001%Z.
Proof. repeat split; vm_compute; reflexivity. Qed.

End Rounding.

(** ** Materialization *)

Module Materialize.
Import Monad Loops.
Section WithHost.
Context `{Host}.














Lemma frame_member_skipped fuel (o : gmap string value) (ls2 : list layer)
    {B} (k : list object3d → M B) :
  field o "type" = VStr "frame" →
  ∀ (ls1 : list layer) (pre : list (option object3d)) s,
    (mapM (buildLayer fuel) (ls1 ++ Element o :: ls2)
       ≫= λ members, k (omap id (pre ++ members))) s
    = (mapM (buildLayer fuel) (ls1 ++ ls2)
       ≫= λ members, k (omap id (pre ++ members))) s.
Proof.
  intros Htype. induction ls1 as [|l ls1 IH]; intros pre s.
  - cbn [app mapM buildLayer view]. rewrite Htype. cbn [js_is String.eqb Ascii.eqb Bool.eqb].
    unfold mbind, M_bind, mret, M_ret.
    destruct (mapM (buildLayer fuel) ls2 s) as [[bs s']| |]; [|done..].
    by rewrite !omap_app.
  - cbn [app mapM]. unfold mbind, M_bind, mret, M_ret.
    destruct (buildLayer fuel l s) as [[b s1]| |]; [|done..].
    specialize (IH (pre ++ [b]) s1). unfold mbind, M_bind in IH.
    destruct (mapM (buildLayer fuel) (ls1 ++ Element o :: ls2) s1)
      as [[bs s2]| |];
      destruct (mapM (buildLayer fuel) (ls1 ++ ls2) s1) as [[bs' s2']| |];
      rewrite <- ?app_assoc in IH; done.
Qed.

Lemma field_insert_ne (o : gmap string value) (k k' : string) (v : value) :
  k ≠ k' → field (<[k := v]> o) k' = field o k'.
Proof. intros Hne. unfold field. by rewrite lookup_insert_ne. Qed.

(** C7, as the source has it.  For a frame element [buildLayer] returns
    without error and yields no volume at all (undefined), and a
    composite builds the same group with or without such a member.  An
    element whose type is none of unit, frame and void, be it an
    unrecognized tag, is materialized exactly as the same element with
    type sheet. *)
Theorem frame_and_unrecognized_types fuel s (o : gmap string value) :
  (field o "type" = VStr "frame" →
     buildLayer fuel (Element o) s = Ok (None, s)
     ∧ ∀ ls1 ls2,
         buildLayer fuel (Composite (ls1 ++ Element o :: ls2)) s
         = buildLayer fuel (Composite (ls1 ++ ls2)) s)
  ∧ (js_is (field o "type") "unit" = false →
     js_is (field o "type") "frame" = false →
     js_is (field o "type") "void" = false →
     buildLayer fuel (Element o) s
     = buildLayer fuel (Element (<["type" := VStr "sheet"]> o)) s).
Proof.
  split.
  - intros Htype. split.
    + simpl. by rewrite Htype.
    + intros ls1 ls2. cbn [buildLayer view].
      apply (frame_member_skipped fuel o ls2
               (λ ms, mret (Some (Object3D ms origin))) Htype ls1 []).
  - intros Hunit Hframe Hvoid. cbn [buildLayer view].
    rewrite Hunit, Hframe, Hvoid.
    assert (Hsheet : field (<["type" := VStr "sheet"]> o) "type" = VStr "sheet")
      by (unfold field; by rewrite lookup_insert_eq).
    rewrite Hsheet. cbn [js_is String.eqb Ascii.eqb Bool.eqb].
    by rewrite !field_insert_ne.
Qed.

(** C8 (defect). The built-in default element has [material: null];
    [getMaterial] is entered with that null and throws a TypeError when
    it reads [material.color]; so [build] fails on a model whose only
    layer names no material, under the built-in options. *)
Theorem null_material_dereferenced :
  field builtin_defaultElement "material" = VNull
  ∧ getMaterial VNull = Throw TypeError
  ∧ run 0 wall_model VUndef = Throw TypeError.
Proof.
  split; [vm_compute; reflexivity|]. split; [vm_compute; reflexivity|].
  unfold run, Section_new.
  change (Section_options VUndef) with (Ok builtin_options).
  cbn [mbind outcome_bind].
  rewrite (Defaults.build_resolves _ _ builtin_defaultElement)
    by (vm_compute; reflexivity).
  vm_compute. reflexivity.
Qed.




End WithHost.


Example scenario_B_centres :
  ∃ grid,
    @createUnitizedMesh example_host 2 scenario_B plain = Ok (grid, plain)
    ∧ length (children_of grid) = 4%nat
    ∧ omap (λ u, (λ c, (Qred c.1, Qred c.2)) <$> centre_in grid u)
        (children_of grid)
      = [ (-125, -125); (125, -125); (-125, 125); (125, 125) ]%Q.
Proof.
  eexists. split; [vm_compute; reflexivity|].
  split; vm_compute; reflexivity.
Qed.


(** C7, as stated, fails: an element of the unknown type "glass" comes out
    as a solid mesh of the full footprint, and [build] throws on a model
    whose only layer is a frame. *)
Lemma unrecognized_type_is_a_sheet :
  @buildLayer example_host 0 (Element pane) plain
  = Ok (Some (Mesh (VStr "pane")
                (BoxGeometry (VInt 500) (VInt 500) (VInt 10))
                grey_lambert origin), plain)
  ∧ @run example_host 0 [Element stud_frame] VUndef = Throw TypeError.
Proof. split; vm_compute; reflexivity. Qed.

Lemma frame_and_unrecognized_types_witness :
  field stud_frame "type" = VStr "frame"
  ∧ @buildLayer example_host 0 (Element stud_frame) plain = Ok (None, plain)
  ∧ @buildLayer example_host 0
      (Composite ([Element pane] ++ Element stud_frame :: [])) plain
    = @buildLayer example_host 0 (Composite ([Element pane] ++ [])) plain
  ∧ js_is (field pane "type") "unit" = false
  ∧ js_is (field pane "type") "frame" = false
  ∧ js_is (field pane "type") "void" = false
  ∧ @buildLayer example_host 0 (Element pane) plain
    = @buildLayer example_host 0 (Element (<["type" := VStr "sheet"]> pane)) plain.
Proof.
  assert (H1 : field stud_frame "type" = VStr "frame") by (vm_compute; reflexivity).
  assert (H2 : js_is (field pane "type") "unit" = false) by (vm_compute; reflexivity).
  assert (H3 : js_is (field pane "type") "frame" = false) by (vm_compute; reflexivity).
  assert (H4 : js_is (field pane "type") "void" = false) by (vm_compute; reflexivity).
  split; [exact H1|].
  split; [exact (proj1 (proj1 (@frame_and_unrecognized_types example_host 0 plain
                                 stud_frame) H1))|].
  split; [exact (proj2 (proj1 (@frame_and_unrecognized_types example_host 0 plain
                                 stud_frame) H1) [Element pane] [])|].
  repeat (split; [assumption|]).
  exact (proj2 (@frame_and_unrecognized_types example_host 0 plain pane) H2 H3 H4).
Defined.


(** The count of rows is the ceiling of the double quotient: units of
    height 0.3 cover a height of 2.1 in 8 rows (of 2 columns here), as
    the double [2.1 / 0.3] is above 7. *)
Example rows_of_inexact_quotient :
  ∃ grid s',
    @createUnitizedMesh example_host 8 unit_of_height_three_tenths
      defaults_of_height_21_tenths = Ok (grid, s')
    ∧ length (children_of grid) = 16%nat.
Proof. vm_compute. eexists _, _. split; reflexivity. Qed.


End Materialize.

(** * Further properties

    Properties of the same functions, and of [merge], [on] and
    [onMouseMove], that the source shows beyond the claims above. *)

(** ** The options and [merge] *)

Module Override.
Import Defaults.
Section WithHost.
Context `{Host}.

Lemma insert_all (o b : gmap string value) :
  foldl (λ C '(key, v), <[key := v]> C) b (keys_in_order o) = o ∪ b.
Proof.
  apply map_eq. intros key.
  assert (Hgen : ∀ (l : list (string * value)) (b : gmap string value),
    NoDup l.*1 →
    foldl (λ C '(key, v), <[key := v]> C) b l !! key
    = match (list_to_map l : gmap string value) !! key with
      | Some v => Some v
      | None => b !! key
      end).
  { clear. induction l as [|[k0 v0] l IH]; intros b Hnd; simpl.
    - by rewrite lookup_empty.
    - inversion Hnd as [|? ? Hk0 Hnd']; subst. rewrite IH by done.
      destruct (decide (k0 = key)) as [->|Hne].
      + rewrite !lookup_insert_eq.
        by rewrite (not_elem_of_list_to_map_1 _ _ Hk0).
      + by rewrite !lookup_insert_ne. }
  rewrite Hgen by apply keys_in_order_NoDup.
  rewrite keys_in_order_to_map.
  destruct (o !! key) as [v|] eqn:Hk.
  - symmetry. by apply lookup_union_Some_l.
  - symmetry. by rewrite lookup_union_r.
Qed.

(** The object [C] of [merge] after the properties of [A]. *)
Lemma merge_first (a : gmap string value) :
  ∃ p, foldl (λ C '(key, v), assign C key v) (∅, ObjectPrototype)
             (keys_in_order a)
       = (delete "__proto__" a, p)
       ∧ (a !! "__proto__" = None → p = ObjectPrototype).
Proof.
  destruct (foldl (λ C '(key, v), assign C key v) (∅, ObjectPrototype)
              (keys_in_order a)) as [c p] eqn:Hfold.
  assert (Hc : c = delete "__proto__" a).
  { apply map_eq. intros key. change c with (c, p).1. rewrite <- Hfold.
    destruct (decide (key = "__proto__")) as [->|Hkey].
    - rewrite assign_proto;
        [|apply keys_in_order_NoDup|apply lookup_empty|by left].
      symmetry. apply lookup_delete_eq.
    - rewrite assign_lookup by (done || apply keys_in_order_NoDup).
      rewrite keys_in_order_to_map, lookup_delete_ne by done.
      cbn [fst]. rewrite lookup_empty. by destruct (a !! key). }
  exists p. split; [by rewrite Hc|].
  intros Ha. rewrite assign_plain in Hfold by (by apply keys_in_order_absent).
  congruence.
Qed.

Lemma merge_run (a b : gmap string value) :
  ∃ p, merge (VObj a) (VObj b)
       = Ok (foldl (λ C '(key, v), assign C key v) (delete "__proto__" a, p)
               (keys_in_order b)).1
       ∧ (a !! "__proto__" = None → p = ObjectPrototype).
Proof.
  destruct (merge_first a) as (p & Hfirst & Hp). exists p. split; [|done].
  unfold merge. cbn [own_entries mbind outcome_bind]. by rewrite Hfirst.
Qed.

Lemma merge_union (a b : gmap string value) :
  a !! "__proto__" = None → b !! "__proto__" = None →
  merge (VObj a) (VObj b) = Ok (b ∪ a).
Proof.
  intros Ha Hb. destruct (merge_run a b) as (p & -> & _).
  rewrite assign_plain by (by apply keys_in_order_absent). cbn [fst].
  by rewrite insert_all, delete_id.
Qed.

(** X1. [merge] of two objects returns a new object in which every own
    property of the second argument, the key [__proto__] apart, has the
    second argument's value and every other one has the first
    argument's value; a key [__proto__] sets the prototype of the new
    object and is not among its properties when only one of the
    arguments has it; and when neither has it, the properties of the
    new object are exactly those of the second argument over those of
    the first. *)
Theorem merge_objects (a b : gmap string value) :
  ∃ c, merge (VObj a) (VObj b) = Ok c
    ∧ (∀ key v, key ≠ "__proto__" → b !! key = Some v → c !! key = Some v)
    ∧ (∀ key, key ≠ "__proto__" → b !! key = None → c !! key = a !! key)
    ∧ (a !! "__proto__" = None ∨ b !! "__proto__" = None →
       c !! "__proto__" = None)
    ∧ (a !! "__proto__" = None → b !! "__proto__" = None → c = b ∪ a).
Proof.
  destruct (merge_run a b) as (p & Hrun & Hp).
  eexists. split; [exact Hrun|].
  assert (Hlook : ∀ key, key ≠ "__proto__" →
    (foldl (λ C '(key, v), assign C key v) (delete "__proto__" a, p)
       (keys_in_order b)).1 !! key
    = match b !! key with Some v => Some v | None => a !! key end).
  { intros key Hkey.
    rewrite assign_lookup by (done || apply keys_in_order_NoDup).
    rewrite keys_in_order_to_map. cbn [fst]. by rewrite lookup_delete_ne. }
  split; [|split; [|split]].
  - intros key v Hkey Hk. by rewrite Hlook, Hk.
  - intros key Hkey Hk. by rewrite Hlook, Hk.
  - intros [Ha|Hb].
    + apply assign_proto;
        [apply keys_in_order_NoDup|apply lookup_delete_eq|left; by apply Hp].
    + rewrite assign_plain by (by apply keys_in_order_absent). cbn [fst].
      rewrite insert_all. apply lookup_union_None.
      split; [done|apply lookup_delete_eq].
  - intros Ha Hb. pose proof (merge_union a b Ha Hb) as Hu.
    rewrite Hrun in Hu. congruence.
Qed.

Lemma own_entries_throws (v : value) :
  own_entries v = Throw TypeError ↔ nullish v.
Proof.
  unfold nullish. destruct v; simpl; split; intros Hv;
    first [done | by left | by right | by destruct Hv].
Qed.

Lemma own_entries_outcome (v : value) :
  nullish v ∨ ∃ entries, own_entries v = Ok entries.
Proof. unfold nullish. destruct v; simpl; eauto. Qed.

(** X2. [merge] throws a TypeError when either argument is undefined or
    null (also when the other one is an object), and returns an object
    for all other arguments ([Object.keys] as of ES2015, which takes
    primitive values). *)
Theorem merge_throws (A B : value) :
  (nullish A ∨ nullish B → merge A B = Throw TypeError)
  ∧ (¬ nullish A → ¬ nullish B → ∃ C, merge A B = Ok C).
Proof.
  split.
  - intros [HA|HB].
    + apply own_entries_throws in HA. unfold merge. by rewrite HA.
    + apply own_entries_throws in HB. unfold merge. rewrite HB.
      destruct (own_entries_outcome A) as [HA|[ea ->]]; [|done].
      apply own_entries_throws in HA. by rewrite HA.
  - intros HA HB.
    destruct (own_entries_outcome A) as [?|[ea Hea]]; [done|].
    destruct (own_entries_outcome B) as [?|[eb Heb]]; [done|].
    unfold merge. rewrite Hea, Heb. simpl. eauto.
Qed.

(** X3. For an options object, the options the constructor leaves in
    the instance are those [merge] computes from the built-in options and
    the given ones: the override loop of the constructor and [merge] are
    the same shallow merge. *)
Theorem constructor_is_merge (o : gmap string value) :
  Section_options (VObj o) = merge (VObj builtin_options) (VObj o).
Proof.
  destruct (merge_run builtin_options o) as (p & -> & Hp).
  rewrite (Hp eq_refl).
  replace (delete "__proto__" builtin_options) with builtin_options
    by (symmetry; by apply delete_id).
  reflexivity.
Qed.

(** X4. The constructor's handling of the options never throws, whatever
    value is passed as options (unlike [merge], which throws on undefined
    and null; [Object.keys] as of ES2015 again): a falsy value leaves the
    built-in options, and every built-in option is present in the
    instance's options in all cases. *)
Theorem options_never_throw (opts : value) :
  ∃ o, Section_options opts = Ok o
       ∧ (ToBoolean opts = false → o = builtin_options)
       ∧ (∀ key, key ∈ dom builtin_options → key ∈ dom o).
Proof.
  unfold Section_options. destruct (ToBoolean opts) eqn:Htrue.
  - destruct (own_entries_outcome opts) as [[-> | ->]|[entries ->]]; [done..|].
    eexists. split; [reflexivity|]. split; [done|].
    intros key. rewrite !elem_of_dom.
    change builtin_options with (builtin_options, ObjectPrototype).1 at 1.
    generalize (builtin_options, ObjectPrototype).
    induction entries as [|[k v] entries IH]; intros x Hx; cbn [foldl]; [done|].
    apply IH. by apply assign_keeps.
  - eexists. split; [reflexivity|]. by split.
Qed.

(** After [__proto__: null] from the first argument, the assignment of
    the second argument's [__proto__] finds no setter and creates a
    property. *)
Example merge_after_null_prototype :
  merge (VObj {[ "__proto__" := VNull ]}) (VObj {[ "__proto__" := VInt 5 ]})
  = Ok {[ "__proto__" := VInt 5 ]}.
Proof.
  unfold merge, own_entries, keys_in_order.
  rewrite !map_to_list_singleton. reflexivity.
Qed.

End WithHost.
End Override.

(** ** Default resolution, again *)

Module Resolve.
Import Defaults.
Section WithHost.
Context `{Host}.

Lemma fill_idemp (entries : list (string * value)) (o : gmap string value) :
  fill_missing (fill_missing o entries) entries = fill_missing o entries.
Proof.
  apply map_eq. intros key.
  rewrite fill_lookup. rewrite (fill_lookup entries o).
  by destruct (o !! key), ((list_to_map entries : gmap string value) !! key).
Qed.

Lemma ordinary_object (d : gmap string value) :
  d !! "hasOwnProperty" = None → d !! "__proto__" = None →
  ordinary_keys (VObj d).
Proof.
  intros Hd1 Hd2 entries [= <-]. by apply ordinary_entries.
Qed.

Lemma inherits_fill (o : gmap string value) (p : prototype)
    (entries : list (string * value)) :
  Forall (λ e, ordinary e.1) entries →
  inherits_hasOwnProperty (fill_missing o entries) p
  = inherits_hasOwnProperty o p.
Proof.
  intros Hord. unfold inherits_hasOwnProperty. rewrite has_own_fill; [done|].
  intros ([k v] & Hk & Hin)%list_elem_of_fmap. simpl in Hk. subst k.
  eapply Forall_forall in Hord; [|exact Hin]. by destruct Hord.
Qed.

(** Under defaults without a key [hasOwnProperty] or [__proto__],
    default resolution changes nothing in what it has produced. *)
Lemma resolved_stable (defaults : value) (l : layer) :
  ordinary_keys defaults →
  ∀ l', applyModelDefaults l defaults = Ok l' →
        applyModelDefaults l' defaults = Ok l'.
Proof.
  intros Hord.
  induction l as [o p|ls IH] using layer_ind'; intros l' Hrun;
    cbn [applyModelDefaults] in Hrun.
  - destruct (own_entries defaults) as [entries| |] eqn:Hkeys; [|done..].
    cbn [mbind outcome_bind] in Hrun.
    pose proof (Hord entries Hkeys) as Hentries.
    destruct (inherits_hasOwnProperty o p) eqn:Hcall.
    + rewrite fill_default_ordinary in Hrun by done.
      cbn [mbind outcome_bind fst snd] in Hrun. injection Hrun as <-.
      cbn [applyModelDefaults]. rewrite Hkeys. cbn [mbind outcome_bind].
      rewrite fill_default_ordinary by (done || by rewrite inherits_fill).
      cbn [mbind outcome_bind fst snd]. by rewrite fill_idemp.
    + destruct entries as [|e entries].
      * cbn [foldO mbind outcome_bind fst snd] in Hrun. injection Hrun as <-.
        cbn [applyModelDefaults]. by rewrite Hkeys.
      * rewrite fill_default_shadowed in Hrun by done. done.
  - destruct (mapO _ ls) as [ls'| |] eqn:Hls; [|done..].
    injection Hrun as <-. cbn [applyModelDefaults].
    assert (mapO (λ element, applyModelDefaults element defaults) ls' = Ok ls')
      as ->; [|done].
    apply mapO_Forall2 in Hls. apply mapO_Forall2.
    clear -IH Hls. induction Hls as [|l l' ls ls' Hl _ IHls]; [constructor|].
    apply Forall_cons in IH as [IHl IH]. constructor; [by apply IHl|].
    by apply IHls.
Qed.

(** X5. Default resolution is idempotent under defaults that have no own
    property [hasOwnProperty] or [__proto__]: for every model, resolving
    a model that resolution has returned returns the same model.  (With
    a default [hasOwnProperty] the second resolution throws, see
    [shadowing_defaults].) *)
Theorem defaults_idempotent (defaults : value) (l l' : layer) :
  ordinary_keys defaults →
  applyModelDefaults l defaults = Ok l' →
  applyModelDefaults l' defaults = Ok l'.
Proof. intros Hord. by apply resolved_stable. Qed.

(** A default for [hasOwnProperty] is filled in by the first resolution;
    the second one throws on the element that the first one returned. *)
Example shadowing_defaults :
  applyModelDefaults (Element ∅) (VObj {[ "hasOwnProperty" := VInt 1 ]})
  = Ok (Element {[ "hasOwnProperty" := VInt 1 ]})
  ∧ applyModelDefaults (Element {[ "hasOwnProperty" := VInt 1 ]})
      (VObj {[ "hasOwnProperty" := VInt 1 ]})
    = Throw TypeError.
Proof.
  unfold applyModelDefaults, own_entries, keys_in_order.
  rewrite !map_to_list_singleton. split; reflexivity.
Qed.

Lemma missing_defaults (defaults : value) (l : layer) :
  nullish defaults →
  applyModelDefaults l defaults
  = if has_element l then Throw TypeError else Ok l.
Proof.
  intros Hnull.
  assert (Hkeys : own_entries defaults = Throw TypeError)
    by (by destruct Hnull as [-> | ->]).
  induction l as [o p|ls IH] using layer_ind'.
  - cbn [applyModelDefaults has_element]. by rewrite Hkeys.
  - simpl. induction IH as [|l ls Hl _ IHls]; simpl; [done|].
    rewrite Hl. destruct (has_element l); simpl; [done|].
    destruct (mapO _ ls) as [ls'| |]; simpl in *;
      destruct (existsb has_element ls); simpl; congruence.
Qed.

(** X6. With undefined or null as the defaults, default resolution
    throws a TypeError exactly when the model holds an element at some
    depth; a model of empty arrays only is returned unchanged. *)
Theorem defaults_missing (l : layer) :
  applyModelDefaults l VUndef = (if has_element l then Throw TypeError else Ok l)
  ∧ applyModelDefaults l VNull = (if has_element l then Throw TypeError else Ok l).
Proof. split; apply missing_defaults; [by left | by right]. Qed.

End WithHost.

(** A wall under the built-in default element. *)
Lemma defaults_idempotent_witness :
  @ordinary_keys example_host (VObj builtin_defaultElement)
  ∧ @applyModelDefaults example_host (Element {[ "name" := VStr "wall" ]})
      (VObj builtin_defaultElement)
    = Ok (Element ({[ "name" := VStr "wall" ]} ∪ builtin_defaultElement))
  ∧ @applyModelDefaults example_host
      (Element ({[ "name" := VStr "wall" ]} ∪ builtin_defaultElement))
      (VObj builtin_defaultElement)
    = Ok (Element ({[ "name" := VStr "wall" ]} ∪ builtin_defaultElement)).
Proof.
  assert (H1 : @ordinary_keys example_host (VObj builtin_defaultElement))
    by (apply ordinary_object; reflexivity).
  assert (H2 : @applyModelDefaults example_host
                 (Element {[ "name" := VStr "wall" ]})
                 (VObj builtin_defaultElement)
               = Ok (Element ({[ "name" := VStr "wall" ]}
                              ∪ builtin_defaultElement)))
    by (vm_compute; reflexivity).
  split; [exact H1|]. split; [exact H2|].
  exact (@defaults_idempotent example_host _ _ _ H1 H2).
Defined.

End Resolve.

(** ** Materials *)

Module Material.
Section WithHost.
Context `{Host}.

Lemma js_or_truthy (a b : value) : ToBoolean b = true → ToBoolean (js_or a b) = true.
Proof. intros Hb. unfold js_or. by destruct (ToBoolean a) eqn:Ha. Qed.

(** The solid-colour branch of [getMaterial]. *)
Lemma lambert_outcome (mt : value) :
  (nullish mt
   ∧ (color ← get mt "color"; opacity ← get mt "opacity";
      Ok (MeshLambertMaterial color true (js_or opacity (VInt 1))))
     = Throw TypeError)
  ∨ ∃ color opacity,
      (color ← get mt "color"; opacity ← get mt "opacity";
       Ok (MeshLambertMaterial color true (js_or opacity (VInt 1))))
      = Ok (MeshLambertMaterial color true opacity)
      ∧ ToBoolean opacity = true.
Proof.
  unfold nullish.
  destruct mt; simpl; eauto; right; eexists _, _; (split; [reflexivity|]);
    by apply js_or_truthy.
Qed.

(** X7. [getMaterial] throws (a TypeError) exactly on an undefined or
    null material, and it always ends: every other value, an object
    without colour included, gives a material. *)
Theorem getMaterial_throws (mt : value) :
  (getMaterial mt = Throw TypeError ↔ nullish mt)
  ∧ getMaterial mt ≠ OutOfFuel.
Proof.
  unfold getMaterial.
  destruct (lambert_outcome mt) as [[Hnull Hl]|(c & o & Hl & _)].
  - rewrite Hl. destruct Hnull as [-> | ->]; simpl; unfold nullish; split;
      try done; split; eauto.
  - rewrite Hl.
    assert (Hnn : ¬ nullish mt).
    { intros [-> | ->]; simpl in Hl; discriminate. }
    destruct (ToBoolean mt); [|by split; [split|]].
    destruct (get mt "texture") as [tex| |] eqn:Htex; simpl.
    + destruct (ToBoolean tex); [destruct (loadTexture tex)|]; by split; [split|].
    + destruct mt; simpl in Htex; try discriminate; exfalso; apply Hnn;
        unfold nullish; eauto.
    + destruct mt; discriminate.
Qed.

(** X8. Whenever [getMaterial] returns a solid-colour (Lambert) material,
    that material is transparent, carries the colour of the material
    record, and its opacity is truthy: the given opacity if that is
    truthy, else 1, so that an opacity of 0 is replaced by 1. *)
Theorem lambert_never_invisible (mt color opacity : value) (transparent : bool) :
  getMaterial mt = Ok (MeshLambertMaterial color transparent opacity) →
  transparent = true ∧ ToBoolean opacity = true ∧ get mt "color" = Ok color
  ∧ (∀ given, get mt "opacity" = Ok given →
       opacity = if ToBoolean given then given else VInt 1).
Proof.
  unfold getMaterial.
  destruct (lambert_outcome mt) as [[Hnull Hl]|(c & o & Hl & Ho)].
  - rewrite Hl. destruct Hnull as [-> | ->]; simpl; discriminate.
  - intros Hrun.
    assert (Hlam : (color0 ← get mt "color"; opacity0 ← get mt "opacity";
                    Ok (MeshLambertMaterial color0 true (js_or opacity0 (VInt 1))))
                   = Ok (MeshLambertMaterial color transparent opacity)).
    { destruct (ToBoolean mt); [|done].
      destruct (get mt "texture") as [tex| |]; simpl in Hrun; [|done..].
      destruct (ToBoolean tex); [|done].
      destruct (loadTexture tex); [discriminate|done]. }
    clear Hrun Hl.
    destruct (get mt "color") as [c'| |]; simpl in Hlam; [|done..].
    destruct (get mt "opacity") as [o'| |]; simpl in Hlam; [|done..].
    injection Hlam as <- <- <-.
    split; [done|]. split; [by apply js_or_truthy|]. split; [done|].
    by intros given [= <-].
Qed.

(** X9. For a material record with a truthy texture: if the texture
    loads, the result is a basic material with that texture, whatever the
    colour and opacity; if loading fails, the result is what the same
    record without its texture gives. *)
Theorem texture_or_fallback (m : gmap string value) :
  ToBoolean (field m "texture") = true →
  getMaterial (VObj m)
  = match loadTexture (field m "texture") with
    | Some t => Ok (MeshBasicMaterial t)
    | None => getMaterial (VObj (delete "texture" m))
    end.
Proof.
  intros Htex. unfold getMaterial. simpl. fold (field m "texture").
  rewrite Htex. destruct (loadTexture _); [done|].
  unfold field. rewrite lookup_delete_eq. simpl.
  by rewrite !lookup_delete_ne.
Qed.

End WithHost.

(** The grey material: its colour, and opacity 1 for want of a given
    one. *)
Lemma lambert_never_invisible_witness :
  @getMaterial example_host grey
  = Ok (MeshLambertMaterial (VInt 8421504) true (VInt 1))
  ∧ true = true ∧ ToBoolean (VInt 1) = true
  ∧ get grey "color" = Ok (VInt 8421504)
  ∧ (∀ given, get grey "opacity" = Ok given →
       VInt 1 = if ToBoolean given then given else VInt 1).
Proof.
  assert (H1 : @getMaterial example_host grey
               = Ok (MeshLambertMaterial (VInt 8421504) true (VInt 1)))
    by (vm_compute; reflexivity).
  split; [exact H1|].
  exact (@lambert_never_invisible example_host grey (VInt 8421504) (VInt 1) true H1).
Defined.

(** The brick material, whose texture the example host loads. *)
Lemma texture_or_fallback_witness :
  ToBoolean (field brick "texture") = true
  ∧ @getMaterial example_host (VObj brick)
    = match @loadTexture example_host (field brick "texture") with
      | Some t => Ok (MeshBasicMaterial t)
      | None => @getMaterial example_host (VObj (delete "texture" brick))
      end.
Proof.
  assert (H1 : ToBoolean (field brick "texture") = true) by (vm_compute; reflexivity).
  split; [exact H1|]. exact (@texture_or_fallback example_host brick H1).
Defined.

End Material.

(** ** Event handlers *)

Module Events.
Section WithHandler.
Context {Handler : Type}.
Implicit Types (handlers : gmap string (list Handler)) (h : Handler).

Lemma on_plain event h handlers :
  handlers !! "hasOwnProperty" = None → event ≠ "__proto__" →
  on event h handlers
  = Ok (<[event := default [] (handlers !! event) ++ [h]]> handlers).
Proof.
  intros Hown Hproto. unfold on.
  rewrite decide_False by (rewrite Hown; by intros [? ?]).
  rewrite decide_False by done.
  case_decide as He; [done|].
  rewrite lookup_insert_eq. simpl. rewrite insert_insert_eq.
  f_equal. f_equal. assert (handlers !! event = None) as ->; [|done].
  destruct (handlers !! event) eqn:E; [|done]. exfalso. apply He. eauto.
Qed.

Lemma on_each_snoc (calls : list (string * Handler)) event h handlers :
  on_each (calls ++ [(event, h)]) handlers
  = (on_each calls handlers ≫= on event h).
Proof. unfold on_each. by rewrite foldl_app. Qed.

(** X10. A sequence of calls of [on], none for the events
    [hasOwnProperty] and [__proto__], on handlers without a property
    [hasOwnProperty], never throws; afterwards each event has its earlier
    handlers followed by the handlers registered for it, in call order
    and with repetitions, and the events that have a list are the earlier
    ones and the ones named in the calls. *)
Theorem registrations_kept (calls : list (string * Handler)) handlers :
  handlers !! "hasOwnProperty" = None →
  Forall (λ c, c.1 ≠ "hasOwnProperty" ∧ c.1 ≠ "__proto__") calls →
  ∃ handlers', on_each calls handlers = Ok handlers'
    ∧ ∀ event,
        default [] (handlers' !! event)
        = default [] (handlers !! event) ++ registered event calls
        ∧ (is_Some (handlers' !! event)
           ↔ is_Some (handlers !! event) ∨ event ∈ calls.*1).
Proof.
  intros Hown. induction calls as [|[e h] calls IH] using rev_ind; intros Hcalls.
  - exists handlers. split; [done|]. intros event. unfold registered. simpl.
    rewrite app_nil_r. split; [done|]. split; [eauto|].
    intros [?|Hin]; [done|]. by apply elem_of_nil in Hin.
  - apply Forall_app in Hcalls as [Hcalls Hlast].
    apply Forall_singleton in Hlast as [Hne Hproto]. simpl in *.
    destruct (IH Hcalls) as (hs & Hrun & Hhs).
    assert (Hown' : hs !! "hasOwnProperty" = None).
    { destruct (hs !! "hasOwnProperty") as [l|] eqn:E; [exfalso|done].
      destruct (Hhs "hasOwnProperty") as [_ [Hs _]].
      destruct Hs as [[x Hx]|Hin]; [rewrite E; eauto|congruence|].
      apply list_elem_of_fmap in Hin as ([e' h'] & Heq & Hin).
      eapply Forall_forall in Hcalls; [|exact Hin]. simpl in *.
      destruct Hcalls as [Hc _]. by apply Hc. }
    eexists. split.
    { rewrite on_each_snoc, Hrun. simpl. by apply on_plain. }
    intros event. destruct (Hhs event) as [Hlist Hdom].
    unfold registered in *. rewrite filter_app, fmap_app, app_assoc, <- Hlist.
    rewrite fmap_app, elem_of_app.
    destruct (decide (e = event)) as [->|Hev].
    + rewrite lookup_insert_eq. rewrite filter_cons_True by done. simpl.
      split; [done|]. split; [intros _|eauto].
      right. right. apply list_elem_of_singleton. done.
    + rewrite lookup_insert_ne by done. rewrite filter_cons_False by done.
      simpl. rewrite app_nil_r. split; [done|]. rewrite Hdom.
      split; [intros [?|?]; eauto|].
      intros [?|[?|Hin]]; eauto.
      apply list_elem_of_singleton in Hin. simpl in Hin. congruence.
Qed.

Lemma on_shadowed event h handlers :
  is_Some (handlers !! "hasOwnProperty") → on event h handlers = Throw TypeError.
Proof. intros Hown. unfold on. by rewrite decide_True. Qed.

(** X11. After a registration for the event named [hasOwnProperty],
    every further call of [on] throws a TypeError, for every event. *)
Theorem hasOwnProperty_event_breaks_on handlers h event h' :
  (on "hasOwnProperty" h handlers ≫= on event h') = Throw TypeError.
Proof.
  destruct (handlers !! "hasOwnProperty") as [l|] eqn:Hown.
  - rewrite (on_shadowed "hasOwnProperty" h handlers) by (rewrite Hown; eauto).
    reflexivity.
  - rewrite on_plain by done. cbn [mbind outcome_bind].
    apply on_shadowed. rewrite lookup_insert_eq. eauto.
Qed.

End WithHandler.

(** Three registrations on an instance without handlers. *)
Lemma registrations_kept_witness :
  (∅ : gmap string (list nat)) !! "hasOwnProperty" = None
  ∧ Forall (λ c : string * nat, c.1 ≠ "hasOwnProperty" ∧ c.1 ≠ "__proto__")
      three_calls
  ∧ ∃ handlers', on_each three_calls ∅ = Ok handlers'
      ∧ ∀ event,
          default [] (handlers' !! event)
          = default [] ((∅ : gmap string (list nat)) !! event)
            ++ registered event three_calls
          ∧ (is_Some (handlers' !! event)
             ↔ is_Some ((∅ : gmap string (list nat)) !! event)
               ∨ event ∈ three_calls.*1).
Proof.
  assert (H1 : (∅ : gmap string (list nat)) !! "hasOwnProperty" = None)
    by reflexivity.
  assert (H2 : Forall (λ c : string * nat,
                         c.1 ≠ "hasOwnProperty" ∧ c.1 ≠ "__proto__") three_calls)
    by (repeat constructor; discriminate).
  split; [exact H1|]. split; [exact H2|].
  exact (@registrations_kept nat three_calls ∅ H1 H2).
Defined.

End Events.

(** ** The pointer *)

Module Pointer.
Section WithHost.
Context `{Host}.

End WithHost.


End Pointer.

(** ** What the compiler reads and writes *)

Module Scene.
Import Monad.

Lemma grows_nil s : grows s [] = s.
Proof. destruct s. unfold grows. simpl. by rewrite app_nil_r. Qed.

Lemma grows_grows s a b : grows (grows s a) b = grows s (a ++ b).
Proof. unfold grows. simpl. by rewrite app_assoc. Qed.

Lemma blind_ret {A} (a : A) : scene_blind (mret a).
Proof.
  intros s1 s2 _. unfold mret, M_ret. split; [done|].
  exists []. by rewrite !grows_nil.
Qed.

Lemma blind_throw {A} e : scene_blind (throw e : M A).
Proof. by intros s1 s2 _. Qed.

Lemma blind_lift {A} (x : outcome A) : scene_blind (lift x).
Proof.
  intros s1 s2 _. unfold lift. destruct x; try done.
  split; [done|]. exists []. by rewrite !grows_nil.
Qed.

Lemma blind_option_get key : scene_blind (option_get key).
Proof.
  intros s1 s2 Ho. unfold option_get. rewrite Ho. split; [done|].
  exists []. by rewrite !grows_nil.
Qed.

Lemma blind_scene_add x : scene_blind (scene_add x).
Proof. intros s1 s2 _. unfold scene_add. split; [done|]. by exists [x]. Qed.

Lemma blind_bind {A B} (m : M A) (f : A → M B) :
  scene_blind m → (∀ a, scene_blind (f a)) → scene_blind (m ≫= f).
Proof.
  intros Hm Hf s1 s2 Ho. specialize (Hm s1 s2 Ho). unfold mbind, M_bind.
  destruct (m s1) as [[a1 t1]| |], (m s2) as [[a2 t2]| |]; try done.
  destruct Hm as (<- & added & -> & ->).
  specialize (Hf a1 (grows s1 added) (grows s2 added) Ho).
  destruct (f a1 (grows s1 added)) as [[b1 u1]| |],
           (f a1 (grows s2 added)) as [[b2 u2]| |]; try done.
  destruct Hf as (<- & added' & -> & ->). split; [done|].
  exists (added ++ added'). by rewrite !grows_grows.
Qed.

Lemma blind_mapM {A B} (f : A → M B) (l : list A) :
  Forall (λ a, scene_blind (f a)) l → scene_blind (mapM f l).
Proof.
  induction 1 as [|a l Ha _ IH]; simpl.
  - apply blind_ret.
  - apply blind_bind; [done|]. intros b.
    apply blind_bind; [done|]. intros bs. apply blind_ret.
Qed.

Lemma blind_foldM {A B} (f : B → A → M B) (l : list A) :
  (∀ b a, scene_blind (f b a)) → ∀ b, scene_blind (foldM f l b).
Proof.
  intros Hf. induction l as [|a l IH]; intros b; simpl.
  - apply blind_ret.
  - apply blind_bind; [apply Hf|]. intros b'. apply IH.
Qed.

Section WithHost.
Context `{Host}.

Lemma blind_createUnitizedMesh fuel obj : scene_blind (createUnitizedMesh fuel obj).
Proof.
  unfold createUnitizedMesh.
  apply blind_bind; [apply blind_option_get|]. intros de.
  apply blind_bind; [apply blind_lift|]. intros dh.
  apply blind_bind; [apply blind_lift|]. intros dw.
  apply blind_bind; [apply blind_lift|]. intros units.
  apply blind_bind; [apply blind_option_get|]. intros debug.
  apply blind_bind; [|intros _; apply blind_ret].
  destruct (ToBoolean debug); [apply blind_scene_add | apply blind_ret].
Qed.

Lemma blind_buildLayer fuel l : scene_blind (buildLayer fuel l).
Proof.
  induction l as [o p|ls IH] using layer_ind'; cbn [buildLayer view].
  - destruct (js_is _ "unit").
    { apply blind_bind; [apply blind_createUnitizedMesh|].
      intros g. apply blind_ret. }
    destruct (js_is _ "frame"); [apply blind_ret|].
    destruct (js_is _ "void"); [apply blind_ret|].
    apply blind_bind; [apply blind_option_get|]. intros de.
    repeat (apply blind_bind; [apply blind_lift|]; intros ?).
    apply blind_ret.
  - apply blind_bind; [by apply blind_mapM|]. intros members. apply blind_ret.
Qed.

Lemma blind_build_step fuel st l : scene_blind (build_step fuel st l).
Proof.
  destruct st as [group total]. unfold build_step.
  apply blind_bind; [apply blind_buildLayer|].
  intros [mesh|]; [apply blind_ret | apply blind_throw].
Qed.

Lemma blind_build_layers fuel mdl st : scene_blind (foldM (build_step fuel) mdl st).
Proof. apply blind_foldM. intros b a. apply blind_build_step. Qed.

End WithHost.
End Scene.

(** ** The effect of [build] on the instance *)

Module Build.
Import Monad Scene.

Lemma helpers_ret {A} (a : A) : helpers_only (mret a).
Proof.
  intros s a' t [= <- <-]. exists []. by rewrite grows_nil.
Qed.

Lemma helpers_lift {A} (x : outcome A) : helpers_only (lift x).
Proof.
  intros s a t [-> ->]%lift_Ok. exists []. by rewrite grows_nil.
Qed.

Lemma helpers_option_get key : helpers_only (option_get key).
Proof.
  intros s a t [-> ->]%option_get_Ok. exists []. by rewrite grows_nil.
Qed.

Lemma helpers_bind {A B} (m : M A) (f : A → M B) :
  helpers_only m → (∀ a, helpers_only (f a)) → helpers_only (m ≫= f).
Proof.
  intros Hm Hf s b t (a & s1 & Hrun & Hrest)%bind_Ok.
  destruct (Hm _ _ _ Hrun) as (h1 & -> & Hh1 & Hd1).
  destruct (Hf _ _ _ _ Hrest) as (h2 & -> & Hh2 & Hd2).
  exists (h1 ++ h2). rewrite grows_grows. split; [done|].
  split; [by apply Forall_app|].
  intros Hd. rewrite (Hd1 Hd), (Hd2 Hd). done.
Qed.

Lemma helpers_mapM {A B} (f : A → M B) (l : list A) :
  Forall (λ a, helpers_only (f a)) l → helpers_only (mapM f l).
Proof.
  induction 1 as [|a l Ha _ IH]; simpl.
  - apply helpers_ret.
  - apply helpers_bind; [done|]. intros b.
    apply helpers_bind; [done|]. intros bs. apply helpers_ret.
Qed.

Lemma helpers_foldM {A B} (f : B → A → M B) (l : list A) :
  (∀ b a, helpers_only (f b a)) → ∀ b, helpers_only (foldM f l b).
Proof.
  intros Hf. induction l as [|a l IH]; intros b; simpl.
  - apply helpers_ret.
  - apply helpers_bind; [apply Hf|]. intros b'. apply IH.
Qed.

Section WithHost.
Context `{Host}.

Lemma createUnitizedMesh_effect fuel obj s grid s' :
  createUnitizedMesh fuel obj s = Ok (grid, s') →
  s' = grows s (if debugging s then [BoundingBoxHelper grid 16711680] else []).
Proof.
  unfold createUnitizedMesh. intros Hrun.
  apply bind_Ok in Hrun as (de & s1 & [-> ->]%option_get_Ok & Hrun).
  apply bind_Ok in Hrun as (dh & s1 & [_ ->]%lift_Ok & Hrun).
  apply bind_Ok in Hrun as (dw & s1 & [_ ->]%lift_Ok & Hrun).
  apply bind_Ok in Hrun as (units & s1 & [_ ->]%lift_Ok & Hrun).
  apply bind_Ok in Hrun as (debug & s1 & [-> ->]%option_get_Ok & Hrun).
  apply bind_Ok in Hrun as (u & s1 & Hdbg & [= -> ->]%ret_Ok).
  unfold debugging. destruct (ToBoolean _).
  - unfold scene_add in Hdbg. by injection Hdbg as _ <-.
  - apply ret_Ok in Hdbg. injection Hdbg as _ ->. by rewrite grows_nil.
Qed.

(** X13. When [createUnitizedMesh] returns a grid, all it has done to the
    instance is this: in debug mode it has added one red (0xff0000)
    bounding-box helper of that very grid to the end of the scene, and
    otherwise nothing; the grid itself is not added to the scene. *)
Theorem debug_adds_bounding_box fuel obj s grid s' :
  createUnitizedMesh fuel obj s = Ok (grid, s') →
  model s' = model s ∧ options s' = options s
  ∧ scene s' = scene s ++ (if debugging s
                           then [BoundingBoxHelper grid 16711680] else [])
  ∧ SceneObject grid ∉ drop (length (scene s)) (scene s').
Proof.
  intros ->%createUnitizedMesh_effect. split; [done|]. split; [done|].
  split; [done|]. simpl. rewrite drop_app_length.
  destruct (debugging s); [|apply not_elem_of_nil].
  intros Hin%list_elem_of_singleton. discriminate.
Qed.

Lemma helpers_createUnitizedMesh fuel obj : helpers_only (createUnitizedMesh fuel obj).
Proof.
  intros s grid t Hrun. apply createUnitizedMesh_effect in Hrun as ->.
  eexists. split; [done|]. destruct (debugging s).
  - split; [|done]. by repeat constructor.
  - by split.
Qed.

Lemma helpers_buildLayer fuel l : helpers_only (buildLayer fuel l).
Proof.
  induction l as [o p|ls IH] using layer_ind'; cbn [buildLayer view].
  - destruct (js_is _ "unit").
    { apply helpers_bind; [apply helpers_createUnitizedMesh|].
      intros g. apply helpers_ret. }
    destruct (js_is _ "frame"); [apply helpers_ret|].
    destruct (js_is _ "void"); [apply helpers_ret|].
    apply helpers_bind; [apply helpers_option_get|]. intros de.
    repeat (apply helpers_bind; [apply helpers_lift|]; intros ?).
    apply helpers_ret.
  - apply helpers_bind; [by apply helpers_mapM|]. intros members.
    apply helpers_ret.
Qed.

Lemma helpers_build_step fuel st l : helpers_only (build_step fuel st l).
Proof.
  destruct st as [group total]. unfold build_step.
  apply helpers_bind; [apply helpers_buildLayer|].
  intros [mesh|]; [apply helpers_ret|]. by intros s a t.
Qed.

(** The [forEach] of [build]: one volume per layer, each at x = 0 and
    y = 0. *)
Lemma build_layers_shape fuel (mdl : list layer) : ∀ group total s g total' s',
  foldM (build_step fuel) mdl (group, total) s = Ok ((g, total'), s') →
  ∃ new, g = group ++ new ∧ length new = length mdl
    ∧ Forall (λ m, vx (position_of m) = VInt 0 ∧ vy (position_of m) = VInt 0) new.
Proof.
  induction mdl as [|l mdl IH]; intros group total s g total' s' Hrun;
    simpl in Hrun.
  - apply ret_Ok in Hrun. injection Hrun as -> -> ->.
    exists []. by rewrite app_nil_r.
  - apply bind_Ok in Hrun as ([g1 t1] & s1 & Hstep & Hrun).
    apply Stacking.build_step_inv in Hstep as (mesh & _ & [= -> ->]).
    apply IH in Hrun as (new & -> & Hlen & Hpos).
    eexists (_ :: new). rewrite <- app_assoc. split; [done|].
    split; [simpl; by rewrite Hlen|].
    constructor; [|done]. by rewrite Stacking.position_set_of.
Qed.

(** What [build] did when it returns. *)
Lemma build_inv fuel s s' :
  build fuel s = Ok (tt, s') →
  ∃ mdl group total helpers,
    mapO (λ element, applyModelDefaults element
                       (default VUndef (options s !! "defaultElement")))
         (model s) = Ok mdl
    ∧ foldM (build_step fuel) mdl ([], VInt 0)
        (MkInstance mdl (options s) (scene s))
      = Ok ((group, total), grows (MkInstance mdl (options s) (scene s)) helpers)
    ∧ Forall is_helper helpers
    ∧ (debugging s = false → helpers = [])
    ∧ s' = MkInstance mdl (options s)
             (scene s ++ helpers ++ [SceneObject (Object3D group origin)]).
Proof.
  unfold build. intros Hrun.
  apply bind_Ok in Hrun as (mdl0 & s1 & [= <- <-] & Hrun).
  apply bind_Ok in Hrun as (de & s1 & [-> ->]%option_get_Ok & Hrun).
  apply bind_Ok in Hrun as (mdl & s1 & [Hmdl ->]%lift_Ok & Hrun).
  apply bind_Ok in Hrun as ([] & s1 & Hset & Hrun).
  unfold model_set in Hset. injection Hset as <-.
  apply bind_Ok in Hrun as ([group total] & s2 & Hfold & Hadd).
  unfold scene_add in Hadd. injection Hadd as <-.
  destruct (helpers_foldM _ mdl (helpers_build_step fuel) _ _ _ _ Hfold)
    as (helpers & -> & Hh & Hd).
  exists mdl, group, total, helpers. repeat split; try done.
  simpl. by rewrite app_assoc.
Qed.

(** X14. When [build] returns, the instance's model is the resolved
    model, its options are unchanged, and the last object of the scene is
    a group with exactly one volume per top-level layer, each at x = 0
    and y = 0. *)
Theorem build_group_shape fuel s s' :
  build fuel s = Ok (tt, s') →
  mapO (λ element, applyModelDefaults element
                     (default VUndef (options s !! "defaultElement")))
       (model s) = Ok (model s')
  ∧ options s' = options s
  ∧ ∃ group,
      last (scene s') = Some (SceneObject (Object3D group origin))
      ∧ length group = length (model s)
      ∧ Forall (λ m, vx (position_of m) = VInt 0 ∧ vy (position_of m) = VInt 0)
          group.
Proof.
  intros (mdl & group & total & helpers & Hmdl & Hfold & _ & _ & ->)%build_inv.
  split; [done|]. split; [done|]. exists group.
  apply build_layers_shape in Hfold as (new & Hg & Hlen & Hpos).
  simpl in Hg. subst new. split; [|split; [|done]].
  - simpl. by rewrite app_assoc, last_snoc.
  - rewrite Hlen. apply Defaults.mapO_Forall2 in Hmdl.
    symmetry. by eapply Forall2_length.
Qed.

(** X15. [build] removes and reorders nothing in the scene: it appends
    bounding-box helpers, and none unless in debug mode, followed by the
    one group of the model. *)
Theorem build_scene_effect fuel s s' :
  build fuel s = Ok (tt, s') →
  ∃ helpers group,
    scene s' = scene s ++ helpers ++ [SceneObject (Object3D group origin)]
    ∧ Forall is_helper helpers
    ∧ (debugging s = false → helpers = []).
Proof.
  intros (mdl & group & total & helpers & _ & _ & Hh & Hd & ->)%build_inv.
  by exists helpers, group.
Qed.

(** X16. [build] is repeatable but not idempotent: when the default
    element has no own property [hasOwnProperty] or [__proto__], [build]
    called again on the instance it has built returns, and it appends to
    the scene a second copy of exactly what the first call has
    appended.  (With a default [hasOwnProperty] the second call throws
    in default resolution, see [Resolve.shadowing_defaults].) *)
Theorem build_again fuel s s1 :
  ordinary_keys (default VUndef (options s !! "defaultElement")) →
  build fuel s = Ok (tt, s1) →
  ∃ added,
    scene s1 = scene s ++ added
    ∧ build fuel s1 = Ok (tt, grows s1 added).
Proof.
  intros Hord.
  intros (mdl & group & total & helpers & Hmdl & Hfold & _ & _ & ->)%build_inv.
  exists (helpers ++ [SceneObject (Object3D group origin)]). split; [done|].
  set (s1 := MkInstance mdl (options s)
               (scene s ++ helpers ++ [SceneObject (Object3D group origin)])).
  assert (Hstable : mapO (λ element, applyModelDefaults element
                       (default VUndef (options s !! "defaultElement"))) mdl
                    = Ok mdl).
  { apply Defaults.mapO_Forall2 in Hmdl. apply Defaults.mapO_Forall2.
    clear -Hmdl Hord.
    induction Hmdl as [|l l' ls ls' Hl _ IH]; constructor; [|done].
    by apply (Resolve.resolved_stable _ l Hord). }
  pose proof (blind_build_layers fuel mdl ([], VInt 0)
                (MkInstance mdl (options s) (scene s)) s1 eq_refl) as Hblind.
  rewrite Hfold in Hblind.
  destruct (foldM (build_step fuel) mdl ([], VInt 0) s1) as [[st t]| |] eqn:Hfold';
    [|done..].
  destruct Hblind as (<- & added & Hgrow & ->).
  assert (added = helpers) as ->.
  { unfold grows in Hgrow. simpl in Hgrow. injection Hgrow as Hsc.
    by apply app_inv_head in Hsc. }
  unfold build.
  rewrite (bind_run _ _ s1 mdl s1) by done.
  rewrite (bind_run _ _ s1 (default VUndef (options s !! "defaultElement")) s1) by done.
  rewrite (bind_run _ _ s1 mdl s1) by (unfold lift; by rewrite Hstable).
  rewrite (bind_run _ _ s1 tt s1) by done.
  rewrite (bind_run _ _ s1 (group, total) (grows s1 helpers)) by done.
  unfold scene_add, grows. simpl. by rewrite <- !app_assoc.
Qed.

End WithHost.

(** Scenario B gridded in debug mode: one helper, of the grid. *)
Lemma debug_adds_bounding_box_witness :
  @createUnitizedMesh example_host 10 scenario_B debug_on
  = Ok (grid_of debug_on, gridded debug_on)
  ∧ model (gridded debug_on) = model debug_on
  ∧ options (gridded debug_on) = options debug_on
  ∧ scene (gridded debug_on)
    = scene debug_on ++ (if debugging debug_on
                         then [BoundingBoxHelper (grid_of debug_on) 16711680]
                         else [])
  ∧ SceneObject (grid_of debug_on)
    ∉ drop (length (scene debug_on)) (scene (gridded debug_on)).
Proof.
  assert (H1 : @createUnitizedMesh example_host 10 scenario_B debug_on
               = Ok (grid_of debug_on, gridded debug_on))
    by (vm_compute; reflexivity).
  split; [exact H1|].
  exact (@debug_adds_bounding_box example_host 10 scenario_B debug_on
           (grid_of debug_on) (gridded debug_on) H1).
Defined.

(** Scenario A: two layers, two volumes. *)
Lemma build_group_shape_witness :
  @build example_host 0 scenario_A = Ok (tt, scenario_A_built)
  ∧ mapO (λ element, @applyModelDefaults example_host element
                       (default VUndef (options scenario_A !! "defaultElement")))
         (model scenario_A) = Ok (model scenario_A_built)
  ∧ options scenario_A_built = options scenario_A
  ∧ ∃ group,
      last (scene scenario_A_built) = Some (SceneObject (Object3D group origin))
      ∧ length group = length (model scenario_A)
      ∧ Forall (λ m, vx (position_of m) = VInt 0 ∧ vy (position_of m) = VInt 0)
          group.
Proof.
  assert (H1 : @build example_host 0 scenario_A = Ok (tt, scenario_A_built))
    by (vm_compute; reflexivity).
  split; [exact H1|].
  exact (@build_group_shape example_host 0 scenario_A scenario_A_built H1).
Defined.

(** Scenario B built in debug mode. *)
Lemma build_scene_effect_witness :
  @build example_host 10 debug_on = Ok (tt, debug_on_built)
  ∧ ∃ helpers group,
      scene debug_on_built
      = scene debug_on ++ helpers ++ [SceneObject (Object3D group origin)]
      ∧ Forall is_helper helpers
      ∧ (debugging debug_on = false → helpers = []).
Proof.
  assert (H1 : @build example_host 10 debug_on = Ok (tt, debug_on_built))
    by (vm_compute; reflexivity).
  split; [exact H1|].
  exact (@build_scene_effect example_host 10 debug_on debug_on_built H1).
Defined.

(** Scenario A built twice. *)
Lemma build_again_witness :
  @ordinary_keys example_host
    (default VUndef (options scenario_A !! "defaultElement"))
  ∧ @build example_host 0 scenario_A = Ok (tt, scenario_A_built)
  ∧ ∃ added,
      scene scenario_A_built = scene scenario_A ++ added
      ∧ @build example_host 0 scenario_A_built
        = Ok (tt, grows scenario_A_built added).
Proof.
  assert (H1 : @build example_host 0 scenario_A = Ok (tt, scenario_A_built))
    by (vm_compute; reflexivity).
  assert (H0 : @ordinary_keys example_host
                 (default VUndef (options scenario_A !! "defaultElement")))
    by (apply Resolve.ordinary_object; reflexivity).
  split; [exact H0|]. split; [exact H1|].
  exact (@build_again example_host 0 scenario_A scenario_A_built H0 H1).
Defined.

End Build.

(** ** Layers, grids and models that do not build *)

Module Layers.
Import Monad.

Lemma mapM_app {A B} (f : A → M B) (l1 l2 : list A) s :
  mapM f (l1 ++ l2) s
  = (b1 ← mapM f l1; b2 ← mapM f l2; mret (b1 ++ b2)) s.
Proof.
  revert s. induction l1 as [|a l1 IH]; intros s; simpl.
  - unfold mbind, M_bind, mret, M_ret.
    by destruct (mapM f l2 s) as [[b2 s2]| |].
  - unfold mbind, M_bind, mret, M_ret.
    destruct (f a s) as [[b s1]| |]; [|done..].
    rewrite IH. unfold mbind, M_bind, mret, M_ret.
    destruct (mapM f l1 s1) as [[b1 s2]| |]; [|done..].
    by destruct (mapM f l2 s2) as [[b2 s3]| |].
Qed.

Lemma for_lt_invariant {St} (P : St → Prop) `{Host} bound
    (body : nat → St → outcome St) :
  (∀ i s s', P s → body i s = Ok s' → P s') →
  ∀ fuel i s s', P s → for_lt fuel bound body i s = Ok s' → P s'.
Proof.
  intros Hbody. induction fuel as [|fuel IH]; intros i s s' Hs Hrun;
    simpl in Hrun; destruct (js_lt _ bound); try done;
    try (by injection Hrun as <-).
  destruct (body i s) as [s1| |] eqn:Hb; simpl in Hrun; [|done..].
  eapply IH; [|exact Hrun]. by eapply Hbody.
Qed.

Section WithHost.
Context `{Host}.

Lemma composite_inv fuel ls s r s' :
  buildLayer fuel (Composite ls) s = Ok (r, s') →
  ∃ members, mapM (buildLayer fuel) ls s = Ok (members, s')
             ∧ r = Some (Object3D (omap id members) origin).
Proof.
  cbn [buildLayer view]. intros (members & s1 & Hm & [= -> ->]%ret_Ok)%bind_Ok. eauto.
Qed.

(** X18. Composites compose: when a composite of the layers [l1] builds
    a group and a composite of [l2] then builds a group, the composite of
    [l1] followed by [l2] builds the group of the children of the first
    followed by the children of the second, with the same effect on the
    instance. *)
Theorem composite_concatenates fuel (l1 l2 : list layer) s s1 s2 r1 r2 :
  buildLayer fuel (Composite l1) s = Ok (r1, s1) →
  buildLayer fuel (Composite l2) s1 = Ok (r2, s2) →
  ∃ c1 c2,
    r1 = Some (Object3D c1 origin) ∧ r2 = Some (Object3D c2 origin)
    ∧ buildLayer fuel (Composite (l1 ++ l2)) s
      = Ok (Some (Object3D (c1 ++ c2) origin), s2).
Proof.
  intros (m1 & Hm1 & ->)%composite_inv (m2 & Hm2 & ->)%composite_inv.
  eexists _, _. split; [done|]. split; [done|].
  cbn [buildLayer view].
  rewrite (bind_run _ _ s (m1 ++ m2) s2).
  - unfold mret, M_ret. by rewrite omap_app.
  - rewrite mapM_app.
    rewrite (bind_run _ _ s m1 s1) by done.
    by rewrite (bind_run _ _ s1 m2 s2).
Qed.

(** X19. [build] never completes on a model with an element of type
    "frame" as a top-level layer: it throws a TypeError (at the latest
    where it sets the position of the volume that [buildLayer] has not
    made), unless it does not end before. *)
Theorem top_level_frame_never_builds fuel s (o : gmap string value) :
  Element o ∈ model s → field o "type" = VStr "frame" →
  build fuel s = Throw TypeError ∨ build fuel s = OutOfFuel.
Proof.
  intros Hin Htype.
  destruct (build fuel s) as [[[] s']|[]|] eqn:Hrun; [exfalso|by left|by right].
  apply Build.build_inv in Hrun
    as (mdl & group & total & helpers & Hmdl & Hfold & _ & _ & _).
  apply Defaults.mapO_Forall2 in Hmdl.
  apply list_elem_of_lookup in Hin as [i Hi].
  destruct (Forall2_lookup_l _ _ _ _ _ Hmdl Hi) as (l' & Hi' & Hres).
  apply Defaults.apply_keeps in Hres as (o' & p' & -> & Hkept).
  assert (Htype' : field (view o' p') "type" = VStr "frame").
  { unfold field in *. destruct (o !! "type") as [v|] eqn:E; [|discriminate].
    simpl in Htype. subst v.
    by rewrite (Defaults.view_own _ _ _ _ (Hkept _ _ E)). }
  rewrite <- (take_drop_middle _ _ _ Hi') in Hfold.
  rewrite foldM_app in Hfold.
  apply bind_Ok in Hfold as ([g1 t1] & s1 & _ & Hrest).
  cbn [foldM] in Hrest.
  apply bind_Ok in Hrest as (st & s2 & Hstep & _).
  apply Stacking.build_step_inv in Hstep as (mesh & Hmesh & _).
  cbn [buildLayer] in Hmesh. cbv zeta in Hmesh. rewrite Htype' in Hmesh.
  cbn [js_is String.eqb Ascii.eqb Bool.eqb] in Hmesh.
  apply ret_Ok in Hmesh. discriminate.
Qed.

(** A unit that [grid_unit] made. *)
Lemma grid_unit_inv obj i j u :
  grid_unit obj i j = Ok u →
  ∃ left right top bottom front back mat,
    get (field obj "offset") "left" = Ok left
    ∧ get (field obj "offset") "right" = Ok right
    ∧ get (field obj "offset") "top" = Ok top
    ∧ get (field obj "offset") "bottom" = Ok bottom
    ∧ get (field obj "offset") "front" = Ok front
    ∧ get (field obj "offset") "back" = Ok back
    ∧ getMaterial (field obj "material") = Ok mat
    ∧ u = Mesh (field obj "name")
            (BoxGeometry
               (js_sub (js_sub (field obj "width") left) right)
               (js_sub (js_sub (field obj "height") top) bottom)
               (js_sub (js_sub (field obj "thickness") front) back))
            mat
            (Vector3 (js_mul (VNum (num_of_nat j)) (field obj "width"))
                     (js_mul (VNum (num_of_nat i)) (field obj "height"))
                     (VInt 0)).
Proof.
  unfold grid_unit, createUnitMesh. intros Hrun.
  destruct (get _ "left") as [left| |]; simpl in Hrun; [|done..].
  destruct (get _ "right") as [right| |]; simpl in Hrun; [|done..].
  destruct (get _ "top") as [top| |]; simpl in Hrun; [|done..].
  destruct (get _ "bottom") as [bottom| |]; simpl in Hrun; [|done..].
  destruct (get _ "front") as [front| |]; simpl in Hrun; [|done..].
  destruct (get _ "back") as [back| |]; simpl in Hrun; [|done..].
  destruct (getMaterial _) as [mat| |]; simpl in Hrun; [|done..].
  injection Hrun as <-. by eexists _, _, _, _, _, _, _.
Qed.

(** X17. Every unit of a grid that [createUnitizedMesh] returns is the
    unit of some row and column, and any two units of the grid have the
    same name, the same geometry and the same material, and lie at
    z = 0: they differ in their x and y only. *)
Theorem units_are_uniform fuel obj s grid s' :
  createUnitizedMesh fuel obj s = Ok (grid, s') →
  Forall (λ u, ∃ i j : nat, grid_unit obj i j = Ok u) (children_of grid)
  ∧ ∀ u u', u ∈ children_of grid → u' ∈ children_of grid →
      ∃ name geometry mat x y x' y',
        u = Mesh name geometry mat (Vector3 x y (VInt 0))
        ∧ u' = Mesh name geometry mat (Vector3 x' y' (VInt 0)).
Proof.
  intros Hrun.
  assert (Hall : Forall (λ u, ∃ i j : nat, grid_unit obj i j = Ok u)
                   (children_of grid)).
  { unfold createUnitizedMesh in Hrun.
    apply bind_Ok in Hrun as (de & s1 & [-> ->]%option_get_Ok & Hrun).
    apply bind_Ok in Hrun as (dh & s1 & [_ ->]%lift_Ok & Hrun).
    apply bind_Ok in Hrun as (dw & s1 & [_ ->]%lift_Ok & Hrun).
    apply bind_Ok in Hrun as (units & s1 & [Hloop ->]%lift_Ok & Hrun).
    apply bind_Ok in Hrun as (debug & s1 & [-> ->]%option_get_Ok & Hrun).
    apply bind_Ok in Hrun as (u & s1 & Hdbg & [= -> ->]%ret_Ok).
    simpl.
    eapply (for_lt_invariant
              (λ geom, Forall (λ u, ∃ i j : nat, grid_unit obj i j = Ok u) geom));
      [|constructor|exact Hloop].
    intros i geom geom' Hgeom Hrow.
    eapply (for_lt_invariant
              (λ geom, Forall (λ u, ∃ i j : nat, grid_unit obj i j = Ok u) geom));
      [|exact Hgeom|exact Hrow].
    intros j acc acc' Hacc Hunit. cbn beta in Hunit.
    destruct (grid_unit obj i j) as [unit| |] eqn:Hu; simpl in Hunit; [|done..].
    injection Hunit as <-. apply Forall_app. split; [done|].
    constructor; [eauto|constructor]. }
  split; [done|]. intros u u' Hu Hu'.
  eapply Forall_forall in Hu; [|exact Hall].
  eapply Forall_forall in Hu'; [|exact Hall].
  destruct Hu as (i & j & Hu), Hu' as (i' & j' & Hu').
  apply grid_unit_inv in Hu
    as (l & r & t & b & f & k & mat & Hl & Hr & Htop & Hb & Hf & Hk & Hm & ->).
  apply grid_unit_inv in Hu'
    as (l' & r' & t' & b' & f' & k' & mat' & Hl' & Hr' & Htop' & Hb' & Hf' & Hk'
        & Hm' & ->).
  rewrite Hl in Hl'. rewrite Hr in Hr'. rewrite Htop in Htop'. rewrite Hb in Hb'.
  rewrite Hf in Hf'. rewrite Hk in Hk'. rewrite Hm in Hm'.
  injection Hl' as <-. injection Hr' as <-. injection Htop' as <-.
  injection Hb' as <-. injection Hf' as <-. injection Hk' as <-.
  injection Hm' as <-.
  by eexists _, _, _, _, _, _, _.
Qed.

(** X20. When the options give undefined or null as the default element
    and the model holds an element at some depth, [build] throws a
    TypeError, whatever the layers are. *)
Theorem build_without_default_element fuel s :
  nullish (default VUndef (options s !! "defaultElement")) →
  existsb has_element (model s) = true →
  build fuel s = Throw TypeError.
Proof.
  intros Hnull Helem.
  pose proof (Resolve.missing_defaults _ (Composite (model s)) Hnull) as Hrun.
  simpl in Hrun. rewrite Helem in Hrun.
  unfold build.
  rewrite (bind_run _ _ s (model s) s) by done.
  rewrite (bind_run _ _ s _ s) by reflexivity.
  unfold mbind at 1, M_bind, lift.
  destruct (mapO _ (model s)) as [mdl| |]; simpl in Hrun; [done| |done].
  simpl. congruence.
Qed.

End WithHost.

(** Scenario B on the plain instance: four units. *)
Lemma units_are_uniform_witness :
  @createUnitizedMesh example_host 10 scenario_B plain = Ok (grid_of plain, plain)
  ∧ Forall (λ u, ∃ i j : nat, @grid_unit example_host scenario_B i j = Ok u)
      (children_of (grid_of plain))
  ∧ ∀ u u', u ∈ children_of (grid_of plain) → u' ∈ children_of (grid_of plain) →
      ∃ name geometry mat x y x' y',
        u = Mesh name geometry mat (Vector3 x y (VInt 0))
        ∧ u' = Mesh name geometry mat (Vector3 x' y' (VInt 0)).
Proof.
  assert (H1 : @createUnitizedMesh example_host 10 scenario_B plain
               = Ok (grid_of plain, plain)) by (vm_compute; reflexivity).
  split; [exact H1|].
  exact (@units_are_uniform example_host 10 scenario_B plain (grid_of plain) plain H1).
Defined.

(** A composite of the board and a composite of the pane. *)
Lemma composite_concatenates_witness :
  @buildLayer example_host 0 (Composite [Element board]) plain
  = Ok (built_of (Composite [Element board]), plain)
  ∧ @buildLayer example_host 0 (Composite [Element pane]) plain
    = Ok (built_of (Composite [Element pane]), plain)
  ∧ ∃ c1 c2,
      built_of (Composite [Element board]) = Some (Object3D c1 origin)
      ∧ built_of (Composite [Element pane]) = Some (Object3D c2 origin)
      ∧ @buildLayer example_host 0
          (Composite ([Element board] ++ [Element pane])) plain
        = Ok (Some (Object3D (c1 ++ c2) origin), plain).
Proof.
  assert (H1 : @buildLayer example_host 0 (Composite [Element board]) plain
               = Ok (built_of (Composite [Element board]), plain))
    by (vm_compute; reflexivity).
  assert (H2 : @buildLayer example_host 0 (Composite [Element pane]) plain
               = Ok (built_of (Composite [Element pane]), plain))
    by (vm_compute; reflexivity).
  split; [exact H1|]. split; [exact H2|].
  exact (@composite_concatenates example_host 0 [Element board] [Element pane]
           plain plain plain _ _ H1 H2).
Defined.

(** A board followed by a frame. *)
Lemma top_level_frame_never_builds_witness :
  Element stud_frame ∈ model framed
  ∧ field stud_frame "type" = VStr "frame"
  ∧ (@build example_host 0 framed = Throw TypeError
     ∨ @build example_host 0 framed = OutOfFuel).
Proof.
  assert (H1 : Element stud_frame ∈ model framed) by (right; left).
  assert (H2 : field stud_frame "type" = VStr "frame") by (vm_compute; reflexivity).
  split; [exact H1|]. split; [exact H2|].
  exact (@top_level_frame_never_builds example_host 0 framed stud_frame H1 H2).
Defined.

(** A wall under options that give [null] as the default element. *)
Lemma build_without_default_element_witness :
  nullish (default VUndef (options without_defaults !! "defaultElement"))
  ∧ existsb has_element (model without_defaults) = true
  ∧ @build example_host 0 without_defaults = Throw TypeError.
Proof.
  assert (H1 : nullish (default VUndef
                          (options without_defaults !! "defaultElement")))
    by (right; vm_compute; reflexivity).
  assert (H2 : existsb has_element (model without_defaults) = true)
    by reflexivity.
  split; [exact H1|]. split; [exact H2|].
  exact (@build_without_default_element example_host 0 without_defaults H1 H2).
Defined.

End Layers.
